(** * Quiz-App-Python: question normalisation and answer validation

    A shallow embedding of [website/views.py]: [slugify],
    [normalize_questions], [load_questions], [save_answers] and the
    [questionnaire] view, together with the properties the specification
    states about them.

    Python [str] values are modelled as [string]; a character is a code
    point below 256 (Latin-1), which fixes what [str.strip], [str.lower]
    and [repr] do on it. *)

From Stdlib Require Import Ascii String.
From stdpp Require Import gmap strings list pretty.
From stdpp Require Import sorting.

Local Open Scope string_scope.
Local Open Scope nat_scope.
Set Warnings "-register-all,-level-tolerance,-clear-no-such-hyp".
Set Default Proof Using "Type".

(** ** Python string primitives *)

Module PyStr.

Definition code (c : ascii) : N := N_of_ascii c.

Definition between (lo hi : N) (c : ascii) : bool :=
  ((lo <=? code c) && (code c <=? hi))%N.

(** [str.isspace] on the code points below 256. *)
Definition is_space (c : ascii) : bool :=
  between 9 13 c || between 28 32 c
  || (code c =? 133)%N || (code c =? 160)%N.

(** [str.lower], per character: A-Z and the upper-case letters of
    Latin-1 (U+00C0..U+00DE without the multiplication sign). *)
Definition lower_char (c : ascii) : ascii :=
  if between 65 90 c || (between 192 222 c && negb (code c =? 215)%N)
  then ascii_of_N (code c + 32)
  else c.

Fixpoint lower (s : string) : string :=
  match s with
  | EmptyString => EmptyString
  | String c r => String (lower_char c) (lower r)
  end.

Definition is_empty (s : string) : bool :=
  match s with EmptyString => true | String _ _ => false end.

(** [s.lstrip(chars)] and [s.rstrip(chars)], the stripped characters
    being given as a predicate. *)
Fixpoint lstrip (p : ascii → bool) (s : string) : string :=
  match s with
  | EmptyString => EmptyString
  | String c r => if p c then lstrip p r else s
  end.

Fixpoint rstrip (p : ascii → bool) (s : string) : string :=
  match s with
  | EmptyString => EmptyString
  | String c r =>
      let r' := rstrip p r in
      if is_empty r' && p c then EmptyString else String c r'
  end.

Definition strip_chars (p : ascii → bool) (s : string) : string :=
  rstrip p (lstrip p s).

(** [s.strip()] *)
Definition strip (s : string) : string := strip_chars is_space s.

(** [re.sub("[C]+", repl, s)] for a character class [C]: every maximal
    run of characters of the class is replaced by [repl]. [in_run]
    tells that the previous character belonged to the class. *)
Fixpoint sub_runs (cls : ascii → bool) (repl : string) (in_run : bool)
    (s : string) : string :=
  match s with
  | EmptyString => EmptyString
  | String c r =>
      if cls c
      then (if in_run then sub_runs cls repl true r
            else repl +:+ sub_runs cls repl true r)
      else String c (sub_runs cls repl false r)
  end.

Definition re_sub_class_plus (cls : ascii → bool) (repl s : string) : string :=
  sub_runs cls repl false s.

(** [s.replace(a, b)] for single characters. *)
Fixpoint replace_char (a b : ascii) (s : string) : string :=
  match s with
  | EmptyString => EmptyString
  | String c r =>
      String (if Ascii.eqb c a then b else c) (replace_char a b r)
  end.

(** [s.split(sep)] for a one-character separator. *)
Fixpoint split (sep : ascii) (s : string) : list string :=
  match s with
  | EmptyString => [EmptyString]
  | String c r =>
      if Ascii.eqb c sep then EmptyString :: split sep r
      else match split sep r with
           | h :: t => String c h :: t
           | [] => [String c EmptyString]
           end
  end.

(** [sep.join(l)] *)
Fixpoint join (sep : string) (l : list string) : string :=
  match l with
  | [] => EmptyString
  | [x] => x
  | x :: r => x +:+ sep +:+ join sep r
  end.

Fixpoint contains (c : ascii) (s : string) : bool :=
  match s with
  | EmptyString => false
  | String d r => Ascii.eqb d c || contains c r
  end.

Fixpoint forallb_str (p : ascii → bool) (s : string) : bool :=
  match s with
  | EmptyString => true
  | String c r => p c && forallb_str p r
  end.

(** [x in l] for a list of strings. *)
Definition mem (x : string) (l : list string) : bool :=
  bool_decide (x ∈ l).

(** The decimal digits 0-9. *)
Definition is_digit (c : ascii) : bool := between 48 57 c.

End PyStr.

(** ** [slugify] *)

Definition is_slug_char (c : ascii) : bool :=
  PyStr.between 97 122 c || PyStr.between 48 57 c || (PyStr.code c =? 95)%N.

Definition is_underscore (c : ascii) : bool := (PyStr.code c =? 95)%N.

(** [text or "question"] and the like: the left operand when it is
    truthy (non-empty). *)
Definition str_or (a b : string) : string :=
  if PyStr.is_empty a then b else a.

Definition slugify (text : string) : string :=
  let text := PyStr.lower (PyStr.strip (str_or text "")) in
  let text := PyStr.re_sub_class_plus (λ c, negb (is_slug_char c)) "_" text in
  let text :=
    PyStr.strip_chars is_underscore
      (PyStr.re_sub_class_plus is_underscore "_" text) in
  str_or text "question".

(** ** JSON documents as [json.load] returns them *)

(** A float is carried as its [repr], which determines it; a [dict] as
    its items in insertion order (its keys are pairwise distinct, so a
    lookup finds the only binding). *)
Inductive json : Type :=
  | JNull
  | JBool (b : bool)
  | JInt (z : Z)
  | JFloat (repr : string)
  | JStr (s : string)
  | JList (l : list json)
  | JDict (d : list (string * json)).

Module Py.

Definition dquote : ascii := ascii_of_N 34.
Definition squote : ascii := ascii_of_N 39.
Definition backslash : ascii := ascii_of_N 92.

Definition hex_digit (n : N) : ascii :=
  if (n <? 10)%N then ascii_of_N (48 + n) else ascii_of_N (87 + n).

Definition hex_escape (c : ascii) : string :=
  String backslash
    (String "x" (String (hex_digit (PyStr.code c / 16))
                   (String (hex_digit (PyStr.code c mod 16)) EmptyString))).

(** One character of [repr(s)], [q] being the quote in use. *)
Definition repr_char (q c : ascii) : string :=
  if Ascii.eqb c q || Ascii.eqb c backslash
  then String backslash (String c EmptyString)
  else if (PyStr.code c =? 9)%N then String backslash "t"
  else if (PyStr.code c =? 10)%N then String backslash "n"
  else if (PyStr.code c =? 13)%N then String backslash "r"
  else if (PyStr.code c <? 32)%N || (PyStr.code c =? 127)%N
  then hex_escape c
  else if (PyStr.code c <? 127)%N then String c EmptyString
  else if PyStr.between 128 160 c || (PyStr.code c =? 173)%N
  then hex_escape c
  else String c EmptyString.

Fixpoint repr_chars (q : ascii) (s : string) : string :=
  match s with
  | EmptyString => EmptyString
  | String c r => repr_char q c +:+ repr_chars q r
  end.

(** [repr] of a [str]: single quotes, unless the string has a single
    quote and no double quote. *)
Definition repr_str (s : string) : string :=
  let q := if PyStr.contains squote s && negb (PyStr.contains dquote s)
           then dquote else squote in
  String q (repr_chars q s +:+ String q EmptyString).

Fixpoint repr (v : json) : string :=
  match v with
  | JNull => "None"
  | JBool true => "True"
  | JBool false => "False"
  | JInt z => pretty z
  | JFloat r => r
  | JStr s => repr_str s
  | JList l => "[" +:+ PyStr.join ", " (map repr l) +:+ "]"
  | JDict d =>
      "{" +:+ PyStr.join ", "
                (map (λ '(k, x), repr_str k +:+ ": " +:+ repr x) d) +:+ "}"
  end.

(** [str(v)] *)
Definition str (v : json) : string :=
  match v with
  | JStr s => s
  | _ => repr v
  end.

(** [bool(v)] *)
Definition truthy (v : json) : bool :=
  match v with
  | JNull => false
  | JBool b => b
  | JInt z => negb (z =? 0)%Z
  | JFloat r => negb (String.eqb r "0.0" || String.eqb r "-0.0")
  | JStr s => negb (PyStr.is_empty s)
  | JList l => match l with [] => false | _ => true end
  | JDict d => match d with [] => false | _ => true end
  end.

(** [a or b] *)
Definition or (a b : json) : json := if truthy a then a else b.

Fixpoint lookup (d : list (string * json)) (k : string) : option json :=
  match d with
  | [] => None
  | (k', v) :: r => if String.eqb k' k then Some v else lookup r k
  end.

(** [k in d] *)
Definition has (d : list (string * json)) (k : string) : bool :=
  match lookup d k with Some _ => true | None => false end.

(** [d.get(k, dflt)]; [d.get(k)] is [get d k JNull]. *)
Definition get (d : list (string * json)) (k : string) (dflt : json) : json :=
  match lookup d k with Some v => v | None => dflt end.

End Py.

(** ** [normalize_questions] *)

(** A canonical question record; [q_options] is [None] when the
    dictionary has no ["options"] entry. *)
Record question : Type := Question {
  q_id : nat;
  q_key : string;
  q_label : string;
  q_description : string;
  q_type : string;
  q_required : bool;
  q_options : option (list string)
}.

(** The local variables of one loop iteration after the format branch. *)
Record entry : Type := Entry {
  e_key : string;
  e_label : string;
  e_desc : string;
  e_qtype : string;
  e_required : bool;
  e_options : json
}.

(** ["key" in q and ("label" in q or "question" in q)] *)
Definition is_new_format (q : list (string * json)) : bool :=
  Py.has q "key" && (Py.has q "label" || Py.has q "question").

Definition is_list (v : json) : bool :=
  match v with JList _ => true | _ => false end.

Definition list_items (v : json) : list json :=
  match v with JList l => l | _ => [] end.

(** [f"q{i}"] *)
Definition positional_key (i : nat) : string := "q" +:+ pretty i.

(** [f"{base_key}_{n}"] *)
Definition numbered_key (base_key : string) (n : nat) : string :=
  base_key +:+ "_" +:+ pretty n.

(** [str(q.get("key") or "").strip()], read alike in both branches. *)
Definition key_field (q : list (string * json)) : string :=
  PyStr.strip (Py.str (Py.or (Py.get q "key" JNull) (JStr ""))).

(** The two format branches of the loop body. *)
Definition read_entry (i : nat) (q : list (string * json)) : entry :=
  if is_new_format q then
    {| e_key := key_field q;
       e_label :=
         PyStr.strip
           (Py.str (Py.or (Py.or (Py.get q "label" JNull)
                                 (Py.get q "question" JNull)) (JStr "")));
       e_desc :=
         PyStr.strip
           (Py.str (Py.or (Py.or (Py.get q "description" JNull)
                                 (Py.get q "desc" JNull)) (JStr "")));
       e_qtype :=
         PyStr.strip (Py.str (Py.or (Py.get q "type" JNull) (JStr "text")));
       e_required := Py.truthy (Py.get q "required" (JBool false));
       e_options := Py.get q "options" JNull |}
  else
    let label :=
      PyStr.strip
        (Py.str (Py.or (Py.or (Py.get q "question" JNull)
                              (Py.get q "label" JNull)) (JStr ""))) in
    let desc :=
      PyStr.strip (Py.str (Py.or (Py.get q "description" JNull) (JStr ""))) in
    let options := Py.get q "options" JNull in
    let qtype :=
      if is_list options && (0 <? List.length (list_items options))%nat
      then "choice" else "text" in
    let required := Py.truthy (Py.get q "required" (JBool true)) in
    let key := key_field q in
    let key :=
      if PyStr.is_empty key then str_or (slugify label) (positional_key i)
      else key in
    {| e_key := key; e_label := label; e_desc := desc; e_qtype := qtype;
       e_required := required; e_options := options |}.

(** The key before deduplication: [q{i}] when still empty, then
    slugified. *)
Definition base_key (i : nat) (e : entry) : string :=
  slugify (if PyStr.is_empty (e_key e) then positional_key i else e_key e).

(** [while key in used_keys: key = f"{base_key}_{n}"; n += 1], one unit of
    fuel per test of the loop condition. *)
Fixpoint dedupe_loop (fuel : nat) (used_keys : gset string)
    (base key : string) (n : nat) : option string :=
  match fuel with
  | 0 => None
  | S fuel =>
      if bool_decide (key ∈ used_keys)
      then dedupe_loop fuel used_keys base (numbered_key base n) (S n)
      else Some key
  end.

(** The loop started at [key = base_key], [n = 2]. It leaves within
    [size used_keys + 1] tests ([dedupe_loop_total] below), so the
    default is never taken. *)
Definition dedupe_key (used_keys : gset string) (base : string) : string :=
  default base (dedupe_loop (S (size used_keys)) used_keys base base 2).

(** [[str(o).strip() for o in options if str(o).strip()]] *)
Definition clean_options (options : list json) : list string :=
  (λ o, PyStr.strip (Py.str o)) <$>
    filter (λ o, PyStr.is_empty (PyStr.strip (Py.str o)) = false) options.

Definition is_choice_type (qtype : string) : bool :=
  String.eqb qtype "choice" || String.eqb qtype "multi".

Definition out_options (qtype : string) (options : json) : option (list string) :=
  if is_choice_type qtype then Some (clean_options (list_items options))
  else None.

(** The [out] dictionary. *)
Definition make_question (i : nat) (e : entry) (key : string) : question :=
  {| q_id := i; q_key := key; q_label := e_label e;
     q_description := e_desc e; q_type := e_qtype e;
     q_required := e_required e;
     q_options := out_options (e_qtype e) (e_options e) |}.

(** The state of the loop: [normalized] and [used_keys]. *)
Definition norm_state : Type := list question * gset string.

(** The body of [for i, q in enumerate(raw, start=1)]. *)
Definition normalize_step (st : norm_state) (i : nat) (q : json) : norm_state :=
  match q with
  | JDict d =>
      let e := read_entry i d in
      if PyStr.is_empty (e_label e) then st
      else
        let key := dedupe_key st.2 (base_key i e) in
        ((st.1 ++ [make_question i e key])%list, {[key]} ∪ st.2)
  | _ => st
  end.

Fixpoint normalize_loop (i : nat) (raw : list json) (st : norm_state)
    : norm_state :=
  match raw with
  | [] => st
  | q :: raw => normalize_loop (S i) raw (normalize_step st i q)
  end.

Definition unwrap_questions (raw : json) : json :=
  match raw with
  | JDict d => match Py.lookup d "questions" with Some v => v | None => raw end
  | _ => raw
  end.

Definition normalize_questions (raw : json) : list question :=
  match raw with
  | JNull => []
  | _ =>
      match unwrap_questions raw with
      | JList l => (normalize_loop 1 l ([], ∅)).1
      | _ => []
      end
  end.

(** The list the loop runs over, empty when there is none. *)
Definition raw_items (raw : json) : list json :=
  list_items (unwrap_questions raw).

(** [enumerate(l, start=i)] *)
Fixpoint enumerate (i : nat) (l : list json) : list (nat * json) :=
  match l with
  | [] => []
  | q :: l => (i, q) :: enumerate (S i) l
  end.

(** The elements the loop does not skip: mappings whose label is not
    empty. *)
Definition kept (i : nat) (q : json) : bool :=
  match q with
  | JDict d => negb (PyStr.is_empty (e_label (read_entry i d)))
  | _ => false
  end.

(** ** Library calls of the validator *)

(** [float(s)] and [datetime.strptime(s, "%Y-%m-%d")] belong to the
    Python library; the validator only observes whether they raise
    [ValueError]. *)
Class PyLib : Type := {
  float_parses : string → bool;
  strptime_ymd_parses : string → bool
}.

(** An instance after the grammar of the Python reference, for running
    the validator on concrete submissions. *)
Module RefLib.

Definition is_digit : ascii → bool := PyStr.is_digit.

Definition digit_val (c : ascii) : nat := N.to_nat (PyStr.code c - 48).

(** the rest of a [digitpart] once a digit has been read *)
Fixpoint digits_tail (s : string) : string :=
  match s with
  | String c r =>
      if is_digit c then digits_tail r
      else if is_underscore c then
        match r with
        | String d r' => if is_digit d then digits_tail r' else s
        | EmptyString => s
        end
      else s
  | EmptyString => s
  end.

Definition digitpart (s : string) : option string :=
  match s with
  | String c r => if is_digit c then Some (digits_tail r) else None
  | EmptyString => None
  end.

Definition drop_sign (s : string) : string :=
  match s with
  | String c r => if Ascii.eqb c "+" || Ascii.eqb c "-" then r else s
  | EmptyString => s
  end.

Definition exponent_end (s : string) : bool :=
  match s with
  | EmptyString => true
  | String c r =>
      (Ascii.eqb c "e" || Ascii.eqb c "E") &&
      match digitpart (drop_sign r) with
      | Some rest => PyStr.is_empty rest
      | None => false
      end
  end.

Definition floatnumber (s : string) : bool :=
  match digitpart s with
  | Some (String "." r) =>
      match digitpart r with
      | Some r' => exponent_end r'
      | None => exponent_end r
      end
  | Some rest => exponent_end rest
  | None =>
      match s with
      | String "." r =>
          match digitpart r with
          | Some r' => exponent_end r'
          | None => false
          end
      | _ => false
      end
  end.

Definition float_ok (s : string) : bool :=
  let body := drop_sign (PyStr.strip s) in
  floatnumber body
  || PyStr.mem (PyStr.lower body) ["inf"; "infinity"; "nan"].

Definition is_leap (y : nat) : bool :=
  ((y mod 4 =? 0) && negb (y mod 100 =? 0) || (y mod 400 =? 0))%nat.

Definition days_in_month (y m : nat) : nat :=
  match m with
  | 2 => if is_leap y then 29 else 28
  | 4 | 6 | 9 | 11 => 30
  | _ => 31
  end.

(** one or two digits of a month or a day, two digits being tried
    first; [None] when the field does not start with a digit *)
Definition two_digits (s : string) : option (nat * string) :=
  match s with
  | String a (String b r) =>
      if is_digit a && is_digit b
      then Some (10 * digit_val a + digit_val b, r)%nat
      else if is_digit a then Some (digit_val a, String b r) else None
  | String a EmptyString =>
      if is_digit a then Some (digit_val a, EmptyString) else None
  | EmptyString => None
  end.

Definition strptime_ok (s : string) : bool :=
  match s with
  | String a (String b (String c (String d (String "-" r)))) =>
      forallb is_digit [a; b; c; d] &&
      let y := (1000 * digit_val a + 100 * digit_val b
                + 10 * digit_val c + digit_val d)%nat in
      match two_digits r with
      | Some (m, String "-" r') =>
          match two_digits r' with
          | Some (dd, EmptyString) =>
              ((1 <=? y) && (1 <=? m) && (m <=? 12)
               && (1 <=? dd) && (dd <=? days_in_month y m))%nat
          | _ => false
          end
      | _ => false
      end
  | _ => false
  end.

Definition lib : PyLib :=
  {| float_parses := float_ok; strptime_ymd_parses := strptime_ok |}.

End RefLib.

(** ** The [questionnaire] view *)

(** [request.form]: the submitted fields in order, a name possibly
    several times. *)
Definition form_data : Type := list (string * string).

(** [request.form.getlist(name)] *)
Definition form_getlist (form : form_data) (name : string) : list string :=
  snd <$> filter (λ kv, kv.1 = name) form.

(** [request.form.get(name, dflt)] *)
Definition form_get (form : form_data) (name dflt : string) : string :=
  match form_getlist form name with
  | v :: _ => v
  | [] => dflt
  end.

(** [[v.strip() for v in selected if v.strip()]] *)
Definition stripped_nonempty (l : list string) : list string :=
  PyStr.strip <$> filter (λ v, PyStr.is_empty (PyStr.strip v) = false) l.

Definition e_acute : ascii := ascii_of_N 233.
Definition e_circ : ascii := ascii_of_N 234.

Definition msg_required (label : string) : string :=
  "'" +:+ label +:+ "' est obligatoire.".

Definition msg_number (label : string) : string :=
  "'" +:+ label +:+ "' doit " +:+ String e_circ "tre un nombre valide.".

Definition msg_date (label : string) : string :=
  "'" +:+ label +:+ "' doit " +:+
  String e_circ "tre une date valide (YYYY-MM-DD).".

Definition msg_choice (label : string) : string :=
  "R" +:+ String e_acute "ponse invalide pour '" +:+ label +:+ "'.".

Definition msg_multi (label : string) : string :=
  "R" +:+ String e_acute "ponses invalides pour '" +:+ label +:+ "'.".

Definition pipe : ascii := "|".
Definition comma : ascii := ",".
Definition dot : ascii := ".".

(** [q.get("options") or []] *)
Definition declared_options (q : question) : list string :=
  default [] (q_options q).

(** The answers accepted so far and the errors recorded so far. *)
Definition val_state : Type := gmap string string * list string.

Section validator.
Context `{PyLib}.

(** "lecture de la valeur" *)
Definition read_value (form : form_data) (q : question) : string :=
  if String.eqb (q_type q) "multi" then
    PyStr.strip
      (PyStr.join " | "
         (stripped_nonempty (form_getlist form (q_key q +:+ "[]"))))
  else PyStr.strip (str_or (form_get form (q_key q) "") "").

(** The type checks on a non-empty value: the error appended, if any. *)
Definition type_error (q : question) (value : string) : option string :=
  if String.eqb (q_type q) "number" then
    if float_parses (PyStr.replace_char comma dot value) then None
    else Some (msg_number (q_label q))
  else if String.eqb (q_type q) "date" then
    if strptime_ymd_parses value then None
    else Some (msg_date (q_label q))
  else if String.eqb (q_type q) "choice" then
    let opts := declared_options q in
    if negb (bool_decide (opts = [])) && negb (PyStr.mem value opts)
    then Some (msg_choice (q_label q)) else None
  else if String.eqb (q_type q) "multi" then
    let opts := declared_options q in
    if negb (bool_decide (opts = [])) then
      let chosen := stripped_nonempty (PyStr.split pipe value) in
      let invalid := filter (λ v, PyStr.mem v opts = false) chosen in
      if negb (bool_decide (invalid = []))
      then Some (msg_multi (q_label q)) else None
    else None
  else None.

(** The body of [for q in questions]. *)
Definition validate_step (form : form_data) (st : val_state) (q : question)
    : val_state :=
  let value := read_value form q in
  if q_required q && PyStr.is_empty value then
    (st.1, (st.2 ++ [msg_required (q_label q)])%list)
  else if PyStr.is_empty value then
    (<[q_key q := ""]> st.1, st.2)
  else
    match type_error q value with
    | Some msg => (st.1, (st.2 ++ [msg])%list)
    | None => (<[q_key q := value]> st.1, st.2)
    end.

Definition validate_from (form : form_data) (st : val_state)
    (questions : list question) : val_state :=
  foldl (validate_step form) st questions.

(** The validation pass of a POST: [answers = {}], [errors = []]. *)
Definition validate (form : form_data) (questions : list question)
    : val_state :=
  validate_from form (∅, []) questions.

End validator.

(** ** Files, flashes and the view *)

(** What [json.load] makes of a definition file: a document, or
    [JSONDecodeError]. *)
Inductive definition_file : Type :=
  | Unparseable
  | Parsed (raw : json).

(** A result log: the rows written so far, each a list of cells. *)
Definition csv_file : Type := list (list string).

Record user : Type := User {
  user_id : Z;
  first_name : string;
  email : string
}.

(** The ambient context of a request: [current_user] and the day
    [datetime.now().strftime("%d/%m/%Y")] yields. *)
Record context : Type := Context_ {
  current_user : user;
  today : string
}.

Inductive http_method : Type := GET | POST.

Record request : Type := Request {
  method : http_method;
  form : form_data
}.

(** The questionnaire directory, the results directory and the flashed
    messages with their categories. *)
Record world : Type := World {
  definitions : gmap string definition_file;
  results : gmap string csv_file;
  flashes : list (string * string)
}.

Inductive response : Type :=
  | Redirect (endpoint : string)
  | Render (template : string) (questions : list question) (qid : string).

(** [None] is Python's [None] (no such file), [Some []] the empty list. *)
Definition load_questions (defs : gmap string definition_file) (qid : string)
    : option (list question) :=
  match defs !! qid with
  | None => None
  | Some Unparseable => Some []
  | Some (Parsed raw) => Some (normalize_questions raw)
  end.

Definition fixed_fields : list string :=
  ["date"; "user_id"; "user_name"; "user_email"].

Definition fieldnames (questions : list question) : list string :=
  (fixed_fields ++ (q_key <$> questions))%list.

(** The [row] dictionary of [save_answers]. *)
Definition answer_row (ctx : context) (questions : list question)
    (answers : gmap string string) : gmap string string :=
  foldl (λ row q, <[q_key q := default "" (answers !! q_key q)]> row)
    (<["user_email" := email (current_user ctx)]>
       (<["user_name" := first_name (current_user ctx)]>
          (<["user_id" := pretty (user_id (current_user ctx))]>
             (<["date" := today ctx]> ∅))))
    questions.

(** [writer.writerow(row)]: the cells in the order of the field names. *)
Definition written_row (fields : list string) (row : gmap string string)
    : list string :=
  (λ f, default "" (row !! f)) <$> fields.

Definition save_answers (ctx : context) (qid : string)
    (questions : list question) (answers : gmap string string)
    (res : gmap string csv_file) : gmap string csv_file :=
  let fields := fieldnames questions in
  let file_exists := bool_decide (is_Some (res !! qid)) in
  let header := if file_exists then [] else [fields] in
  let row := answer_row ctx questions answers in
  <[qid := (default [] (res !! qid) ++ header ++ [written_row fields row])%list]>
    res.

Definition flash (msg category : string) (w : world) : world :=
  {| definitions := definitions w; results := results w;
     flashes := (flashes w ++ [(msg, category)])%list |}.

Definition flash_all (msgs : list string) (category : string) (w : world)
    : world :=
  foldl (λ w msg, flash msg category w) w msgs.

Definition set_results (res : gmap string csv_file) (w : world) : world :=
  {| definitions := definitions w; results := res; flashes := flashes w |}.

Definition msg_not_found (qid : string) : string :=
  "Questionnaire '" +:+ qid +:+ "' introuvable.".

Definition msg_unreadable : string :=
  "Le fichier JSON est vide ou n'a pas un format lisible.".

Definition msg_thanks : string :=
  "Merci ! Vos r" +:+ String e_acute "ponses ont " +:+
  String e_acute "t" +:+ String e_acute " enregistr" +:+
  String e_acute "es.".

Section view.
Context `{PyLib}.

Definition questionnaire (ctx : context) (req : request) (qid : string)
    (w : world) : response * world :=
  match load_questions (definitions w) qid with
  | None => (Redirect "views.quiz", flash (msg_not_found qid) "error" w)
  | Some [] => (Redirect "views.quiz", flash msg_unreadable "error" w)
  | Some questions =>
      match method req with
      | POST =>
          let '(answers, errors) := validate (form req) questions in
          match errors with
          | _ :: _ =>
              (Render "quiz.html" questions qid, flash_all errors "error" w)
          | [] =>
              (Redirect "views.quiz",
               flash msg_thanks "success"
                 (set_results
                    (save_answers ctx qid questions answers (results w)) w))
          end
      | GET => (Render "quiz.html" questions qid, w)
      end
  end.

End view.

(** ** Predicates of the specification *)

(** [^[a-z0-9_]+$] *)
Definition is_slug (s : string) : bool :=
  negb (PyStr.is_empty s) && PyStr.forallb_str is_slug_char s.

(** [str.isalnum] on the code points below 256: the digits and letters
    of ASCII, the ordinal indicators and the micro sign, the superscript
    digits, the vulgar fractions and the letters of Latin-1 (U+00C0 to
    U+00FF without the multiplication and the division sign). *)
Definition is_alnum (c : ascii) : bool :=
  PyStr.between 48 57 c || PyStr.between 65 90 c || PyStr.between 97 122 c
  || (PyStr.code c =? 170)%N || PyStr.between 178 179 c
  || (PyStr.code c =? 181)%N || PyStr.between 185 186 c
  || PyStr.between 188 190 c || PyStr.between 192 214 c
  || PyStr.between 216 246 c || PyStr.between 248 255 c.

Definition no_alnum (s : string) : bool :=
  PyStr.forallb_str (λ c, negb (is_alnum c)) s.

Definition starts_with (p : ascii → bool) (s : string) : bool :=
  match s with
  | EmptyString => false
  | String c _ => p c
  end.

Fixpoint ends_with (p : ascii → bool) (s : string) : bool :=
  match s with
  | EmptyString => false
  | String c EmptyString => p c
  | String _ r => ends_with p r
  end.

(** No underscore follows an underscore; [prev] tells that the
    character before [s] is one. *)
Fixpoint single_underscores (prev : bool) (s : string) : bool :=
  match s with
  | EmptyString => true
  | String c r =>
      if is_underscore c then negb prev && single_underscores true r
      else single_underscores false r
  end.

(** The shape of a slug: characters of [[a-z0-9_]], underscores single
    and only inside. *)
Definition canonical (s : string) : bool :=
  negb (PyStr.is_empty s) && PyStr.forallb_str is_slug_char s
  && single_underscores false s
  && negb (starts_with is_underscore s) && negb (ends_with is_underscore s).

(** The record at index [j] of [qs] was made from the mapping at
    position [q_id] of [items], with the key the deduplication loop
    gives against the keys emitted before it. *)
Definition provenance (items : list json) (qs : list question) : Prop :=
  ∀ j q, qs !! j = Some q →
    ∃ d, items !! (q_id q - 1) = Some (JDict d) ∧ 1 ≤ q_id q ∧
      PyStr.is_empty (e_label (read_entry (q_id q) d)) = false ∧
      q = make_question (q_id q) (read_entry (q_id q) d)
            (dedupe_key (list_to_set (q_key <$> take j qs))
               (base_key (q_id q) (read_entry (q_id q) d))).

(** [isinstance(options, list) and len(options) > 0] on the entry. *)
Definition has_nonempty_options (d : list (string * json)) : Prop :=
  ∃ o os, Py.lookup d "options" = Some (JList (o :: os)).

(** The positions [enumerate] gives to the elements that are kept. *)
Definition kept_positions (i : nat) (l : list json) : list nat :=
  fst <$> filter (λ iq, kept iq.1 iq.2 = true) (enumerate i l).

(** The invariant on the keys: [used_keys] holds the emitted keys, which
    are pairwise distinct slugs. *)
Definition keys_inv (st : norm_state) : Prop :=
  st.2 = list_to_set (q_key <$> st.1) ∧
  NoDup (q_key <$> st.1) ∧
  Forall (λ k, is_slug k = true) (q_key <$> st.1).

Section verdicts.
Context `{PyLib}.

(** What one question adds to the answers and to the errors, read off
    the loop body run on the empty state. *)
Definition step_answers (form : form_data) (q : question)
    : gmap string string :=
  (validate_step form (∅, []) q).1.

Definition step_errors (form : form_data) (q : question) : list string :=
  (validate_step form (∅, []) q).2.

(** The question passes: the loop body records no error for it. *)
Definition accepted (form : form_data) (q : question) : Prop :=
  step_errors form q = [].

End verdicts.

(** ** Example documents and submissions *)

(** The end-to-end example of the specification. *)
Definition legacy_age : json :=
  JList [JDict [("question", JStr "Age?"); ("options", JList [])]].

(** Two labels with the same slug around an element that is skipped. *)
Definition two_q : json :=
  JList [JDict [("question", JStr "Q")]; JInt 3; JDict [("label", JStr "q!")]].

(** A number, which is skipped, before the only mapping. *)
Definition skipped_first : json :=
  JList [JInt 5; JDict [("question", JStr "A")]].


Definition multi_ab : question :=
  Question 1 "langs" "Langues" "" "multi" true (Some ["A"; "B"; "C"]).

(** A multi question one of whose options holds the delimiter. *)
Definition multi_piped : question :=
  Question 1 "pair" "Paire" "" "multi" false (Some ["A|B"; "C"]).

Definition number_q : question :=
  Question 1 "poids" "Poids" "" "number" true None.

Definition text_q : question :=
  Question 2 "nom" "Nom" "" "text" true None.

Definition alice : context :=
  {| current_user := User 7 "Alice" "alice@example.org";
     today := "03/11/2026" |}.

Definition one_definition : gmap string definition_file :=
  {[ "sondage" := Parsed (JList [JDict [("key", JStr "poids");
                                         ("label", JStr "Poids");
                                         ("type", JStr "number");
                                         ("required", JBool true)]]);
     "casse" := Unparseable ]}.

Definition start_world : world :=
  {| definitions := one_definition; results := ∅; flashes := [] |}.

(** A selection the round trip is stated for: trimmed, not empty, and
    free of the delimiter character. *)
Definition plain_choice (v : string) : Prop :=
  PyStr.strip v = v ∧ v ≠ "" ∧ PyStr.contains pipe v = false.

(** ** Records written back as documents *)

(** The [out] dictionary of a record as a JSON value, in the order of
    its entries: what [json.dump] writes and [json.load] reads back. *)
Definition question_to_json (q : question) : json :=
  JDict ([("id", JInt (Z.of_nat (q_id q)));
          ("key", JStr (q_key q));
          ("label", JStr (q_label q));
          ("description", JStr (q_description q));
          ("type", JStr (q_type q));
          ("required", JBool (q_required q))]
         ++ match q_options q with
            | Some opts => [("options", JList (JStr <$> opts))]
            | None => []
            end)%list.

(** [{"questions": normalized}] *)
Definition payload (normalized : list question) : json :=
  JDict [("questions", JList (question_to_json <$> normalized))].

Definition set_id (i : nat) (q : question) : question :=
  {| q_id := i; q_key := q_key q; q_label := q_label q;
     q_description := q_description q; q_type := q_type q;
     q_required := q_required q; q_options := q_options q |}.

(** The records numbered again from [i] on. *)
Fixpoint renumber (i : nat) (qs : list question) : list question :=
  match qs with
  | [] => []
  | q :: qs => set_id i q :: renumber (S i) qs
  end.

Definition trimmed (s : string) : Prop := PyStr.strip s = s.

(** The shape of a record [normalize_questions] returns. *)
Definition well_formed (q : question) : Prop :=
  1 ≤ q_id q ∧
  canonical (q_key q) = true ∧
  q_label q ≠ "" ∧ trimmed (q_label q) ∧
  trimmed (q_description q) ∧ trimmed (q_type q) ∧
  match q_options q with
  | Some opts =>
      is_choice_type (q_type q) = true ∧
      Forall (λ o, o ≠ "" ∧ trimmed o) opts
  | None => is_choice_type (q_type q) = false
  end.

(** ** Result logs *)

(** A log as the view leaves it: the header of the questionnaire first,
    then rows with one cell per column. *)
Definition log_ok (questions : list question) (rows : csv_file) : Prop :=
  ∃ body, rows = fieldnames questions :: body ∧
    Forall (λ row, length row = length (fieldnames questions)) body.

(** The cells of the submitter: date, id, name and e-mail. *)
Definition submitter_cells (ctx : context) : list string :=
  [today ctx; pretty (user_id (current_user ctx));
   first_name (current_user ctx); email (current_user ctx)].

(** More example questions. *)
Definition choice_q : question :=
  Question 3 "ville" "Ville" "" "choice" false (Some ["Paris"; "Lyon"]).

Definition misspelt_q : question :=
  Question 4 "age" "Age" "" "nubmer" true None.

(** A question whose key is the name of the first fixed column. *)
Definition date_q : question :=
  Question 1 "date" "Date" "" "date" true None.

(** ** File names *)

(** [s.rsplit(sep, 1)] for a one-character separator: [[s]] when [s] has
    no separator, otherwise what stands before and after the last one. *)
Fixpoint rsplit1 (sep : ascii) (s : string) : list string :=
  match s with
  | EmptyString => [EmptyString]
  | String c r =>
      match rsplit1 sep r with
      | [a; b] => [String c a; b]
      | _ => if Ascii.eqb c sep then [EmptyString; r] else [String c r]
      end
  end.

Definition ALLOWED_EXTENSIONS : list string := ["json"].

Definition allowed_file (filename : string) : bool :=
  PyStr.contains dot filename &&
  match rsplit1 dot filename !! 1 with
  | Some ext => PyStr.mem (PyStr.lower ext) ALLOWED_EXTENSIONS
  | None => false
  end.

(** [s.endswith(suffix)] *)
Fixpoint endswith (s suffix : string) : bool :=
  String.eqb s suffix ||
  match s with
  | EmptyString => false
  | String _ r => endswith r suffix
  end.

Definition is_dot (c : ascii) : bool := Ascii.eqb c dot.

(** [os.path.splitext(name)[0]] for a name without a directory
    separator, as [os.listdir] gives: the part before the last dot,
    unless only dots stand before it. *)
Definition splitext_root (name : string) : string :=
  match rsplit1 dot name with
  | [root; _] => if PyStr.forallb_str is_dot root then name else root
  | _ => name
  end.

(** ** [list_questionnaires] *)

Record listed : Type := Listed {
  l_id : string;
  l_filename : string;
  l_has_results : bool
}.

#[global] Instance listed_eq_dec : EqDecision listed.
Proof. solve_decision. Defined.

(** The dictionary appended for a file name. *)
Definition list_entry (res : gmap string csv_file) (fname : string) : listed :=
  let qid := splitext_root fname in
  {| l_id := qid; l_filename := fname;
     l_has_results := bool_decide (is_Some (res !! qid)) |}.

(** [sort(key=lambda x: x["id"])]: the stable sort by ascending id,
    written as an insertion sort from the right. *)
Fixpoint insert_by_id (x : listed) (l : list listed) : list listed :=
  match l with
  | [] => [x]
  | y :: l' =>
      if String.leb (l_id x) (l_id y) then x :: l
      else y :: insert_by_id x l'
  end.

Definition sort_by_id (l : list listed) : list listed :=
  foldr insert_by_id [] l.

(** The order of the sort. *)
Definition by_id (x y : listed) : Prop := String.le (l_id x) (l_id y).

(** [listdir] is what [os.listdir] gives for the questionnaire
    directory, [None] when it is not a directory; a result log exists
    for [qid] when the results hold one under that name. *)
Definition list_questionnaires (listdir : option (list string))
    (res : gmap string csv_file) : list listed :=
  sort_by_id
    (list_entry res <$>
       filter (λ fname, endswith fname ".json" = true) (default [] listdir)).

(** ** The administration views *)

Inductive admin_response : Type :=
  | Forbidden
  | RedirectTo (endpoint : string)
  | RedirectBack
  | RenderPage (template : string).

Definition e_grave : ascii := ascii_of_N 232.
Definition a_grave : ascii := ascii_of_N 224.

Definition msg_deleted (qid : string) : string :=
  "Questionnaire '" +:+ qid +:+ "' supprim" +:+ String e_acute " avec succ"
  +:+ String e_grave "s.".

Definition remove_files (qid : string) (w : world) : world :=
  {| definitions := delete qid (definitions w);
     results := delete qid (results w);
     flashes := flashes w |}.

(** [is_admin] is [current_user.is_admin]; [abort(403)] leaves
    everything as it is. *)
Definition admin_delete_questionnaire (is_admin : bool) (qid : string)
    (w : world) : admin_response * world :=
  if negb is_admin then (Forbidden, w)
  else
    let deleted := bool_decide (is_Some (definitions w !! qid)) in
    let w := remove_files qid w in
    (RedirectTo "views.admin_questionnaires",
     if deleted then flash (msg_deleted qid) "success" w
     else flash (msg_not_found qid) "error" w).

(** ** [admin_create_questionnaire] *)

(** [f"{name}_{idx}"] and [f"option_{idx}_{opt_i}"] *)
Definition field (name : string) (idx : nat) : string :=
  name +:+ "_" +:+ pretty idx.

Definition option_field (idx opt_i : nat) : string :=
  "option_" +:+ pretty idx +:+ "_" +:+ pretty opt_i.

(** [request.form.get(name)], [None] when the field is absent. *)
Definition form_find (form : form_data) (name : string) : option string :=
  head (form_getlist form name).

(** The inner [while True] loop, reading the options of question [idx]:
    it stops at the first absent field. One unit of fuel per field
    read. *)
Fixpoint options_loop (fuel : nat) (form : form_data) (idx opt_i : nat)
    (options : list string) : option (list string) :=
  match fuel with
  | 0 => None
  | S fuel =>
      match form_find form (option_field idx opt_i) with
      | None => Some options
      | Some opt =>
          let opt := PyStr.strip opt in
          options_loop fuel form idx (S opt_i)
            (if PyStr.is_empty opt then options else (options ++ [opt])%list)
      end
  end.

(** The options of question [idx]; the loop stops within
    [length form + 1] reads ([options_loop_total] below). *)
Definition read_options (form : form_data) (idx : nat) : list string :=
  default [] (options_loop (S (length form)) form idx 1 []).

(** The dictionary [q] built for a labelled question. *)
Definition form_question (form : form_data) (idx : nat)
    (label key desc qtype : string) (required : bool) : json :=
  let key := if PyStr.is_empty key then slugify label else key in
  let key := slugify key in
  JDict ([("key", JStr key); ("label", JStr label);
          ("description", JStr desc); ("type", JStr qtype);
          ("required", JBool required)]
         ++ (if is_choice_type qtype
             then [("options", JList (JStr <$> read_options form idx))]
             else []))%list.

(** The outer [while True] loop over [idx]. *)
Fixpoint questions_loop (fuel : nat) (form : form_data) (idx : nat)
    (questions : list json) : option (list json) :=
  match fuel with
  | 0 => None
  | S fuel =>
      let label :=
        PyStr.strip (str_or (form_get form (field "label" idx) "") "") in
      let key :=
        PyStr.strip (str_or (form_get form (field "key" idx) "") "") in
      let desc :=
        PyStr.strip (str_or (form_get form (field "desc" idx) "") "") in
      let qtype :=
        PyStr.strip (str_or (form_get form (field "type" idx) "") "text") in
      let required :=
        negb (PyStr.is_empty (form_get form (field "required" idx) "")) in
      if PyStr.is_empty label && PyStr.is_empty key && PyStr.is_empty desc
         && (1 <? idx)
      then Some questions
      else if PyStr.is_empty label
      then questions_loop fuel form (S idx) questions
      else questions_loop fuel form (S idx)
             (questions
              ++ [form_question form idx label key desc qtype required])%list
  end.

(** The questions read from the form, from [idx = 1]; the loop stops
    within [length form + 2] rounds ([questions_loop_total] below). *)
Definition read_questions (form : form_data) : list json :=
  default [] (questions_loop (S (S (length form))) form 1 []).

Definition msg_invalid_id : string := "Identifiant invalide.".

Definition msg_exists : string :=
  "Un questionnaire avec cet identifiant existe d" +:+
  String e_acute "j" +:+ String a_grave ".".

Definition msg_no_question : string := "Ajoute au moins une question.".

Definition msg_cannot_create : string :=
  "Impossible de cr" +:+
  String e_acute "er le questionnaire (questions invalides).".

Definition msg_created (qid : string) : string :=
  "Questionnaire '" +:+ qid +:+ "' cr" +:+ String e_acute
  (String e_acute ".").

(** Writing [payload] to the file of [qid]: [json.load] reads back what
    [json.dump] wrote. *)
Definition write_definition (qid : string) (doc : json) (w : world) : world :=
  {| definitions := <[qid := Parsed doc]> (definitions w);
     results := results w; flashes := flashes w |}.

Definition admin_create_questionnaire (is_admin : bool) (req : request)
    (w : world) : admin_response * world :=
  if negb is_admin then (Forbidden, w)
  else
    match method req with
    | GET => (RenderPage "admin_create.html", w)
    | POST =>
        let qid := slugify (form_get (form req) "qid" "") in
        if PyStr.is_empty qid
        then (RedirectBack, flash msg_invalid_id "error" w)
        else if bool_decide (is_Some (definitions w !! qid))
        then (RedirectBack, flash msg_exists "error" w)
        else
          let questions := read_questions (form req) in
          match questions with
          | [] => (RedirectBack, flash msg_no_question "error" w)
          | _ =>
              let normalized :=
                normalize_questions (JDict [("questions", JList questions)]) in
              match normalized with
              | [] => (RedirectBack, flash msg_cannot_create "error" w)
              | _ =>
                  (RedirectTo "views.admin_questionnaires",
                   flash (msg_created qid) "success"
                     (write_definition qid (payload normalized) w))
              end
          end
    end.

(** A creation form with two questions, the second one a choice. *)
Definition creation_form : form_data :=
  [("qid", "Mon Sondage"); ("label_1", "Ton nom ?"); ("type_1", "text");
   ("required_1", "on"); ("label_2", "Ville"); ("key_2", "ville");
   ("type_2", "choice"); ("option_2_1", "Paris"); ("option_2_2", " Lyon ");
   ("option_2_3", "  ")].

(** What the outer loop appends: the dictionary of a question with a
    trimmed, non-empty label. *)
Definition form_entry (form : form_data) (q : json) : Prop :=
  ∃ idx label key desc qtype required,
    q = form_question form idx label key desc qtype required ∧
    label ≠ "" ∧ trimmed label ∧ trimmed qtype.

(** ** Reading a definition file from the disk *)

(** [load_questions] above runs on files that [open] and [json.load]
    read to the end or refuse with [JSONDecodeError]. The [try]
    statement of the source has two [except] clauses only,
    [FileNotFoundError] and [json.JSONDecodeError]; any other exception
    leaves the function. [Disk.load_questions] keeps that third way
    out. *)
Module Disk.

(** What a call does: it raises or it returns. *)
Inductive outcome (A : Type) : Type :=
  | Raised
  | Returned (a : A).

Arguments Raised {A}.
Arguments Returned {A} a.

(** An existing file, by what [open] and [json.load] do on it: they give
    a document or [JSONDecodeError] ([Decoded]), or they raise something
    else, as [UnicodeDecodeError] on bytes that are not UTF-8. *)
Inductive stored : Type :=
  | Decoded (f : definition_file)
  | OtherError.

Definition load_questions (files : gmap string stored) (qid : string)
    : outcome (option (list question)) :=
  match files !! qid with
  | None => Returned None
  | Some (Decoded (Parsed raw)) => Returned (Some (normalize_questions raw))
  | Some (Decoded Unparseable) => Returned (Some [])
  | Some OtherError => Raised
  end.

End Disk.

(** An uploaded file in Latin-1, which is not UTF-8, beside a file of
    text that is not JSON. *)
Definition uploads : gmap string Disk.stored :=
  {[ "latin1" := Disk.OtherError; "casse" := Disk.Decoded Unparseable ]}.

(** * Properties *)

(** ** The definitions on examples *)

Example slugify_age : slugify "  Age? " = "age".
Proof. reflexivity. Qed.
Example slugify_mixed : slugify "Nom__de  Famille!" = "nom_de_famille".
Proof. reflexivity. Qed.

Example repr_list : Py.str (JList [JInt 1; JStr "a'b"; JNull]) =
  "[1, " +:+ String Py.dquote ("a'b" +:+ String Py.dquote ", None]").
Proof. reflexivity. Qed.

Example normalize_legacy_age :
  normalize_questions legacy_age =
  [Question 1 "age" "Age?" "" "text" true None].
Proof. vm_compute. reflexivity. Qed.

Example normalize_two_q :
  normalize_questions two_q =
  [Question 1 "q" "Q" "" "text" true None;
   Question 3 "q_2" "q!" "" "text" true None].
Proof. vm_compute. reflexivity. Qed.

Example float_examples :
  RefLib.float_ok <$> ["12.5"; "1e5"; ".5"; "5."; "-inf"; "1_0"; "12,5"; "abc"; "."; "1__0"]
  = [true; true; true; true; true; true; false; false; false; false].
Proof. vm_compute. reflexivity. Qed.

Example strptime_examples :
  RefLib.strptime_ok <$> ["2024-02-29"; "2023-02-29"; "2024-1-5"; "2024-13-01"; "24-01-01"]
  = [true; false; true; false; false].
Proof. vm_compute. reflexivity. Qed.

Example post_accepted :
  (@questionnaire RefLib.lib alice (Request POST [("poids", "12,5")])
     "sondage" start_world).2 =
  {| definitions := one_definition;
     results :=
       {[ "sondage" :=
            [["date"; "user_id"; "user_name"; "user_email"; "poids"];
             ["03/11/2026"; "7"; "Alice"; "alice@example.org"; "12,5"]] ]};
     flashes := [(msg_thanks, "success")] |}.
Proof. vm_compute. reflexivity. Qed.

Example post_rejected :
  (@questionnaire RefLib.lib alice (Request POST [("poids", "douze")])
     "sondage" start_world).2 =
  {| definitions := one_definition; results := ∅;
     flashes := [(msg_number "Poids", "error")] |}.
Proof. vm_compute. reflexivity. Qed.

Example get_missing :
  (@questionnaire RefLib.lib alice (Request GET []) "absent" start_world).1 =
  Redirect "views.quiz".
Proof. vm_compute. reflexivity. Qed.

(** ** Characters *)

Ltac all_chars c :=
  destruct c as [[] [] [] [] [] [] [] []]; try discriminate; try reflexivity.

Lemma slug_char_not_space c : is_slug_char c = true → PyStr.is_space c = false.
Proof. all_chars c. Qed.

Lemma slug_char_lower c : is_slug_char c = true → PyStr.lower_char c = c.
Proof. all_chars c. Qed.

Lemma underscore_char c : is_underscore c = true → c = "_"%char.
Proof. all_chars c. Qed.

Lemma underscore_is_slug_char c : is_underscore c = true → is_slug_char c = true.
Proof. all_chars c. Qed.

Lemma lower_no_alnum c :
  is_alnum c = false → is_alnum (PyStr.lower_char c) = false.
Proof. all_chars c. Qed.

Lemma slug_not_alnum_underscore c :
  is_alnum c = false → is_slug_char c = true → is_underscore c = true.
Proof. all_chars c. Qed.

Lemma digit_is_slug_char c : PyStr.is_digit c = true → is_slug_char c = true.
Proof. all_chars c. Qed.

Lemma digit_not_underscore c : PyStr.is_digit c = true → is_underscore c = false.
Proof. all_chars c. Qed.

(** ** Stripping *)

Section strip.
Variable p : ascii → bool.

Lemma lstrip_fixed s : starts_with p s = false → PyStr.lstrip p s = s.
Proof. destruct s as [|c r]; simpl; [done|]. by intros ->. Qed.

Lemma rstrip_fixed s : ends_with p s = false → PyStr.rstrip p s = s.
Proof.
  induction s as [|c r IH]; simpl; [done|].
  destruct r as [|d r'].
  - simpl. by intros ->.
  - intros Hr. rewrite IH by done. done.
Qed.

Lemma lstrip_starts s : starts_with p (PyStr.lstrip p s) = false.
Proof.
  induction s as [|c r IH]; simpl; [done|].
  destruct (p c) eqn:Hc; [done|]. simpl. done.
Qed.

Lemma rstrip_ends s : ends_with p (PyStr.rstrip p s) = false.
Proof.
  induction s as [|c r IH]; simpl; [done|].
  destruct (PyStr.rstrip p r) as [|d r'] eqn:Hr; simpl.
  - destruct (p c) eqn:Hc; simpl; [done|]. done.
  - done.
Qed.

Lemma rstrip_starts s :
  starts_with p s = false → starts_with p (PyStr.rstrip p s) = false.
Proof.
  destruct s as [|c r]; simpl; [done|]. intros Hc.
  rewrite Hc, andb_false_r. done.
Qed.

Lemma strip_chars_starts s : starts_with p (PyStr.strip_chars p s) = false.
Proof. apply rstrip_starts, lstrip_starts. Qed.

Lemma strip_chars_ends s : ends_with p (PyStr.strip_chars p s) = false.
Proof. apply rstrip_ends. Qed.

Lemma strip_chars_fixed s :
  starts_with p s = false → ends_with p s = false →
  PyStr.strip_chars p s = s.
Proof.
  intros Hs He. unfold PyStr.strip_chars.
  rewrite lstrip_fixed by done. by apply rstrip_fixed.
Qed.

Lemma lstrip_all s : PyStr.forallb_str p s = true → PyStr.lstrip p s = "".
Proof.
  induction s as [|c r IH]; simpl; [done|].
  intros [-> ?]%andb_true_iff. auto.
Qed.

Lemma forallb_lstrip (f : ascii → bool) s :
  PyStr.forallb_str f s = true → PyStr.forallb_str f (PyStr.lstrip p s) = true.
Proof.
  induction s as [|c r IH]; simpl; [done|].
  intros [Hc Hr]%andb_true_iff. destruct (p c); [auto|].
  simpl. by rewrite Hc, Hr.
Qed.

Lemma forallb_rstrip (f : ascii → bool) s :
  PyStr.forallb_str f s = true → PyStr.forallb_str f (PyStr.rstrip p s) = true.
Proof.
  induction s as [|c r IH]; simpl; [done|].
  intros [Hc Hr]%andb_true_iff.
  destruct (PyStr.is_empty (PyStr.rstrip p r) && p c); [done|].
  simpl. by rewrite Hc, IH.
Qed.

Lemma forallb_strip_chars (f : ascii → bool) s :
  PyStr.forallb_str f s = true →
  PyStr.forallb_str f (PyStr.strip_chars p s) = true.
Proof. intros. by apply forallb_rstrip, forallb_lstrip. Qed.

End strip.

Lemma forallb_str_impl (f g : ascii → bool) s :
  (∀ c, f c = true → g c = true) →
  PyStr.forallb_str f s = true → PyStr.forallb_str g s = true.
Proof.
  intros Hfg. induction s as [|c r IH]; simpl; [done|].
  intros [Hc Hr]%andb_true_iff. by rewrite (Hfg _ Hc), IH.
Qed.

Lemma forallb_starts_false (f p : ascii → bool) s :
  (∀ c, f c = true → p c = false) →
  PyStr.forallb_str f s = true → starts_with p s = false.
Proof.
  intros Hfp. destruct s as [|c r]; simpl; [done|].
  intros [Hc _]%andb_true_iff. auto.
Qed.

Lemma forallb_ends_false (f p : ascii → bool) s :
  (∀ c, f c = true → p c = false) →
  PyStr.forallb_str f s = true → ends_with p s = false.
Proof.
  intros Hfp. induction s as [|c r IH]; simpl; [done|].
  intros [Hc Hr]%andb_true_iff. destruct r; auto.
Qed.

Lemma forallb_str_app f s t :
  PyStr.forallb_str f (s +:+ t) =
  PyStr.forallb_str f s && PyStr.forallb_str f t.
Proof.
  induction s as [|c r IH]; simpl; [done|].
  by rewrite IH, andb_assoc.
Qed.

(** ** [slugify] *)

Lemma str_app_nil (t : string) : "" +:+ t = t.
Proof. reflexivity. Qed.

Lemma str_app_cons c (s t : string) : String c s +:+ t = String c (s +:+ t).
Proof. reflexivity. Qed.

Ltac simpl_app := rewrite ?str_app_cons, ?str_app_nil.

Lemma sub_nonslug_all b s :
  PyStr.forallb_str is_slug_char
    (PyStr.sub_runs (λ c, negb (is_slug_char c)) "_" b s) = true.
Proof.
  revert b. induction s as [|c r IH]; intros b; simpl; [done|].
  destruct (is_slug_char c) eqn:Hc; simpl.
  - by rewrite Hc, IH.
  - destruct b; simpl_app; simpl; by rewrite IH.
Qed.

Lemma sub_nonslug_fixed b s :
  PyStr.forallb_str is_slug_char s = true →
  PyStr.sub_runs (λ c, negb (is_slug_char c)) "_" b s = s.
Proof.
  revert b. induction s as [|c r IH]; intros b; simpl; [done|].
  intros [Hc Hr]%andb_true_iff. rewrite Hc. simpl. by rewrite IH.
Qed.

Lemma sub_underscore_all (f : ascii → bool) b s :
  f "_"%char = true →
  PyStr.forallb_str f s = true →
  PyStr.forallb_str f (PyStr.sub_runs is_underscore "_" b s) = true.
Proof.
  intros Hf. revert b. induction s as [|c r IH]; intros b; simpl; [done|].
  intros [Hc Hr]%andb_true_iff.
  destruct (is_underscore c); [destruct b|]; simpl_app; simpl;
    rewrite ?Hf, ?Hc; simpl; auto.
Qed.

Lemma sub_underscore_single b s :
  single_underscores b (PyStr.sub_runs is_underscore "_" b s) = true.
Proof.
  revert b. induction s as [|c r IH]; intros b; simpl; [done|].
  destruct (is_underscore c) eqn:Hc; [destruct b|]; simpl_app; simpl;
    rewrite ?Hc; auto.
Qed.

Lemma sub_underscore_fixed b s :
  single_underscores b s = true → PyStr.sub_runs is_underscore "_" b s = s.
Proof.
  revert b. induction s as [|c r IH]; intros b; simpl; [done|].
  destruct (is_underscore c) eqn:Hc.
  - intros [Hb Hr]%andb_true_iff. apply negb_true_iff in Hb as ->.
    simpl_app. rewrite (IH _ Hr). by rewrite (underscore_char c Hc).
  - intros Hr. by rewrite (IH _ Hr).
Qed.

Lemma single_underscores_lstrip b s :
  single_underscores b s = true →
  single_underscores false (PyStr.lstrip is_underscore s) = true.
Proof.
  revert b. induction s as [|c r IH]; intros b; simpl; [done|].
  destruct (is_underscore c) eqn:Hc.
  - intros [_ Hr]%andb_true_iff. eauto.
  - intros Hr. simpl. by rewrite Hc.
Qed.

Lemma single_underscores_rstrip p b s :
  single_underscores b s = true →
  single_underscores b (PyStr.rstrip p s) = true.
Proof.
  revert b. induction s as [|c r IH]; intros b; simpl; [done|].
  destruct (PyStr.is_empty (PyStr.rstrip p r) && p c); [done|]. simpl.
  destruct (is_underscore c).
  - intros [-> Hr]%andb_true_iff. simpl. eauto.
  - eauto.
Qed.

Lemma lower_fixed s :
  PyStr.forallb_str is_slug_char s = true → PyStr.lower s = s.
Proof.
  induction s as [|c r IH]; simpl; [done|].
  intros [Hc Hr]%andb_true_iff. by rewrite slug_char_lower, IH.
Qed.

Lemma is_empty_true s : PyStr.is_empty s = true ↔ s = "".
Proof. by destruct s. Qed.

Lemma is_empty_false s : PyStr.is_empty s = false ↔ s ≠ "".
Proof. by destruct s. Qed.

Lemma slugify_canonical s : canonical (slugify s) = true.
Proof.
  unfold slugify, PyStr.re_sub_class_plus.
  set (t2 := PyStr.sub_runs is_underscore "_" false _).
  set (out := PyStr.strip_chars is_underscore t2).
  assert (PyStr.forallb_str is_slug_char t2 = true) as Hall.
  { apply sub_underscore_all; [done|]. apply sub_nonslug_all. }
  destruct (PyStr.is_empty out) eqn:Hout; unfold str_or; rewrite Hout; [done|].
  unfold canonical. rewrite Hout. simpl.
  rewrite !andb_true_iff, !negb_true_iff. split_and!.
  - by apply forallb_strip_chars.
  - apply single_underscores_rstrip.
    apply (single_underscores_lstrip false), sub_underscore_single.
  - apply strip_chars_starts.
  - apply strip_chars_ends.
Qed.

Lemma slugify_fixed s : canonical s = true → slugify s = s.
Proof.
  unfold canonical. rewrite !andb_true_iff, !negb_true_iff.
  intros [[[[Hne Hall] Hsingle] Hstart] Hend].
  unfold slugify, str_or, PyStr.strip, PyStr.re_sub_class_plus.
  rewrite Hne.
  rewrite (strip_chars_fixed PyStr.is_space s).
  - rewrite lower_fixed, sub_nonslug_fixed, sub_underscore_fixed by done.
    rewrite strip_chars_fixed by done. by rewrite Hne.
  - eapply forallb_starts_false; [apply slug_char_not_space|done].
  - eapply forallb_ends_false; [apply slug_char_not_space|done].
Qed.

Lemma slugify_idem s : slugify (slugify s) = slugify s.
Proof. apply slugify_fixed, slugify_canonical. Qed.

Lemma canonical_is_slug s : canonical s = true → is_slug s = true.
Proof.
  unfold canonical, is_slug. rewrite !andb_true_iff.
  intros [[[[Hne Hall] _] _] _]. by split.
Qed.

Lemma slugify_is_slug s : is_slug (slugify s) = true.
Proof. apply canonical_is_slug, slugify_canonical. Qed.

Lemma slugify_nonempty s : slugify s ≠ "".
Proof.
  pose proof (slugify_is_slug s) as Hs. unfold is_slug in Hs.
  apply andb_true_iff in Hs as [Hs _]. apply negb_true_iff in Hs.
  by apply is_empty_false.
Qed.

Lemma lower_no_alnum_str s : no_alnum s = true → no_alnum (PyStr.lower s) = true.
Proof.
  unfold no_alnum. induction s as [|c r IH]; simpl; [done|].
  rewrite !andb_true_iff, !negb_true_iff. intros [Hc Hr].
  split; [by apply lower_no_alnum|auto].
Qed.

Lemma sub_nonslug_underscores b s :
  no_alnum s = true →
  PyStr.forallb_str is_underscore
    (PyStr.sub_runs (λ c, negb (is_slug_char c)) "_" b s) = true.
Proof.
  unfold no_alnum. revert b.
  induction s as [|c r IH]; intros b; simpl; [done|].
  rewrite andb_true_iff, negb_true_iff. intros [Hc Hr].
  destruct (is_slug_char c) eqn:Hs; simpl.
  - by rewrite (slug_not_alnum_underscore c Hc Hs), IH.
  - destruct b; simpl_app; simpl; by rewrite IH.
Qed.

Lemma slugify_no_alnum s : no_alnum s = true → slugify s = "question".
Proof.
  intros Hs. unfold slugify, PyStr.strip_chars at 1.
  rewrite (lstrip_all is_underscore); [done|].
  apply sub_underscore_all; [done|].
  apply sub_nonslug_underscores, lower_no_alnum_str.
  assert (str_or s "" = s) as -> by by destruct s.
  by apply forallb_strip_chars.
Qed.

(** ** Decimal numerals and generated keys *)

Lemma pretty_N_char_digit x : PyStr.is_digit (pretty_N_char x) = true.
Proof. unfold pretty_N_char. by repeat case_match. Qed.

Lemma pretty_N_go_digits x s :
  PyStr.forallb_str PyStr.is_digit s = true →
  PyStr.forallb_str PyStr.is_digit (pretty_N_go x s) = true.
Proof.
  revert s. induction (N.lt_wf_0 x) as [x _ IH]; intros s Hs.
  destruct (decide (x = 0)%N) as [->|Hx].
  - by rewrite pretty_N_go_0.
  - rewrite pretty_N_go_step by lia. apply IH.
    + apply N.div_lt; lia.
    + simpl. by rewrite pretty_N_char_digit.
Qed.

Lemma pretty_nat_digits (n : nat) :
  PyStr.forallb_str PyStr.is_digit (pretty n) = true.
Proof.
  unfold pretty, pretty_nat, pretty, pretty_N.
  case_decide; [done|]. by apply pretty_N_go_digits.
Qed.

Lemma str_app_nil_r (s : string) : s +:+ "" = s.
Proof. induction s as [|c r IH]; [done|]. simpl_app. by rewrite IH. Qed.

Lemma numbered_key_inj base n m :
  numbered_key base n = numbered_key base m → n = m.
Proof.
  unfold numbered_key. intros Heq.
  apply (inj (String.app base)) in Heq.
  apply (inj (String.app "_")) in Heq.
  by apply (inj pretty) in Heq.
Qed.

Lemma numbered_key_ne_base base n : numbered_key base n ≠ base.
Proof.
  unfold numbered_key. intros Heq.
  rewrite <-(str_app_nil_r base) in Heq at 2.
  by apply (inj (String.app base)) in Heq.
Qed.

Lemma numbered_key_is_slug base n :
  is_slug base = true → is_slug (numbered_key base n) = true.
Proof.
  unfold is_slug, numbered_key. rewrite !andb_true_iff, !negb_true_iff.
  intros [Hne Hall]. split.
  - destruct base; [done|]. by simpl_app.
  - rewrite !forallb_str_app, Hall. simpl.
    eapply forallb_str_impl; [apply digit_is_slug_char|].
    apply pretty_nat_digits.
Qed.

Lemma positional_key_canonical i : canonical (positional_key i) = true.
Proof.
  pose proof (pretty_nat_digits i) as Hd.
  unfold canonical, positional_key. simpl_app. simpl.
  rewrite !andb_true_iff, !negb_true_iff. split_and!; try done.
  - eapply forallb_str_impl; [apply digit_is_slug_char|done].
  - revert Hd. generalize false. generalize (pretty i).
    induction s as [|c r IH]; intros b; simpl; [done|].
    intros [Hc Hr]%andb_true_iff.
    rewrite (digit_not_underscore c Hc). eauto.
  - revert Hd. generalize (pretty i). intros s Hs.
    destruct s as [|c r]; [done|].
    eapply (forallb_ends_false PyStr.is_digit); [apply digit_not_underscore|done].
Qed.

Lemma slugify_positional_key i : slugify (positional_key i) = positional_key i.
Proof. apply slugify_fixed, positional_key_canonical. Qed.

(** ** The deduplication loop *)

Lemma dedupe_loop_some fuel used base key n (tried : gset string) :
  tried ⊆ used → key ∉ tried →
  (∀ m, n ≤ m → numbered_key base m ∉ tried ∧ numbered_key base m ≠ key) →
  size used < fuel + size tried →
  is_Some (dedupe_loop fuel used base key n).
Proof.
  revert key n tried.
  induction fuel as [|fuel IH]; intros key n tried Hsub Hkey Hfresh Hsize.
  - apply subseteq_size in Hsub. lia.
  - simpl. case_bool_decide as Hin; [|done].
    apply (IH _ _ ({[key]} ∪ tried)).
    + set_solver.
    + destruct (Hfresh n) as [? ?]; [lia|]. set_solver.
    + intros m Hm. destruct (Hfresh m) as [? ?]; [lia|]. split.
      * set_solver.
      * intros Heq%numbered_key_inj. lia.
    + rewrite size_union by set_solver. rewrite size_singleton. lia.
Qed.

Lemma dedupe_loop_total used base :
  is_Some (dedupe_loop (S (size used)) used base base 2).
Proof.
  apply (dedupe_loop_some _ _ _ _ _ ∅).
  - set_solver.
  - set_solver.
  - intros m _. split; [set_solver|apply numbered_key_ne_base].
  - rewrite size_empty. lia.
Qed.

Lemma dedupe_loop_spec fuel used base key n k :
  dedupe_loop fuel used base key n = Some k →
  k ∉ used ∧
  ((key ∉ used ∧ k = key) ∨
   (key ∈ used ∧ ∃ m, n ≤ m ∧ k = numbered_key base m ∧
      ∀ j, n ≤ j < m → numbered_key base j ∈ used)).
Proof.
  revert key n. induction fuel as [|fuel IH]; intros key n; simpl; [done|].
  case_bool_decide as Hin.
  - intros Hk. destruct (IH _ _ Hk) as [Hfresh Hcases]. split; [done|].
    right. split; [done|].
    destruct Hcases as [[_ ->]|[Hn (m & Hm & -> & Hbelow)]].
    + exists n. split_and!; [lia|done|]. intros j ?. lia.
    + exists m. split_and!; [lia|done|]. intros j Hj.
      destruct (decide (j = n)) as [->|]; [done|]. apply Hbelow. lia.
  - intros [= <-]. split; [done|]. by left.
Qed.

(** The key emitted for [base]: fresh, [base] itself when that is free,
    and otherwise the first free one of [base_2], [base_3], ... *)
Lemma dedupe_key_spec used base :
  dedupe_loop (S (size used)) used base base 2 = Some (dedupe_key used base) ∧
  dedupe_key used base ∉ used ∧
  (base ∉ used → dedupe_key used base = base) ∧
  (base ∈ used → ∃ n, 2 ≤ n ∧ dedupe_key used base = numbered_key base n ∧
     ∀ m, 2 ≤ m < n → numbered_key base m ∈ used).
Proof.
  unfold dedupe_key.
  destruct (dedupe_loop_total used base) as [k Hk]. rewrite Hk. simpl.
  destruct (dedupe_loop_spec _ _ _ _ _ _ Hk) as [Hfresh Hcases].
  split_and!; [done|done| |].
  - intros Hb. destruct Hcases as [[_ ->]|[? _]]; done.
  - intros Hb. destruct Hcases as [[? _]|[_ Hm]]; done.
Qed.

Lemma dedupe_key_is_slug used base :
  is_slug base = true → is_slug (dedupe_key used base) = true.
Proof.
  intros Hb. destruct (dedupe_key_spec used base) as (_ & _ & Hfree & Hused).
  destruct (decide (base ∈ used)) as [Hin|Hin].
  - destruct (Hused Hin) as (n & _ & -> & _). by apply numbered_key_is_slug.
  - by rewrite Hfree.
Qed.

(** ** The normalisation loop *)

Lemma normalize_step_skip st i q :
  kept i q = false → normalize_step st i q = st.
Proof.
  destruct q; try done. simpl. intros Hk%negb_false_iff. by rewrite Hk.
Qed.

Lemma normalize_step_keep st i q :
  kept i q = true →
  ∃ d, q = JDict d ∧
    PyStr.is_empty (e_label (read_entry i d)) = false ∧
    normalize_step st i q =
      ((st.1 ++ [make_question i (read_entry i d)
                   (dedupe_key st.2 (base_key i (read_entry i d)))])%list,
       {[dedupe_key st.2 (base_key i (read_entry i d))]} ∪ st.2).
Proof.
  destruct q as [| | | | | |d]; try done. simpl. intros Hk%negb_true_iff.
  exists d. by rewrite Hk.
Qed.

Lemma normalize_questions_loop raw :
  normalize_questions raw = (normalize_loop 1 (raw_items raw) ([], ∅)).1.
Proof.
  unfold normalize_questions, raw_items.
  destruct raw; try done. by destruct (unwrap_questions _).
Qed.

Lemma base_key_is_slug i e : is_slug (base_key i e) = true.
Proof. apply slugify_is_slug. Qed.

Lemma normalize_step_keys st i q : keys_inv st → keys_inv (normalize_step st i q).
Proof.
  intros (Hset & Hnd & Hslug).
  destruct (kept i q) eqn:Hk; [|by rewrite normalize_step_skip].
  destruct (normalize_step_keep st i q Hk) as (d & _ & _ & ->).
  set (k := dedupe_key _ _).
  assert (k ∉ st.2) as Hfresh by apply dedupe_key_spec.
  split_and!; simpl; rewrite fmap_app; simpl.
  - rewrite list_to_set_app_L, Hset. set_solver.
  - apply NoDup_app. split_and!; [done| |apply NoDup_singleton].
    intros x Hx ->%list_elem_of_singleton. apply Hfresh.
    rewrite Hset. by apply elem_of_list_to_set.
  - apply Forall_app. split; [done|]. apply Forall_singleton.
    apply dedupe_key_is_slug, base_key_is_slug.
Qed.

Lemma normalize_loop_keys l i st : keys_inv st → keys_inv (normalize_loop i l st).
Proof.
  revert i st. induction l as [|q l IH]; intros i st Hst; simpl; [done|].
  by apply IH, normalize_step_keys.
Qed.

Lemma keys_inv_init : keys_inv ([], ∅).
Proof. split_and!; simpl; [done|apply NoDup_nil_2|done]. Qed.

Lemma provenance_snoc items qs i d :
  provenance items qs →
  items !! (i - 1) = Some (JDict d) → 1 ≤ i →
  PyStr.is_empty (e_label (read_entry i d)) = false →
  provenance items
    (qs ++ [make_question i (read_entry i d)
              (dedupe_key (list_to_set (q_key <$> qs))
                 (base_key i (read_entry i d)))]).
Proof.
  intros Hprov Hitem Hi Hlabel j q Hj.
  apply lookup_app_Some in Hj as [Hj|[Hlen Hj]].
  - destruct (Hprov j q Hj) as (d' & ? & ? & ? & Hq).
    exists d'. split_and!; try done.
    rewrite take_app_le; [done|].
    apply lookup_lt_Some in Hj. lia.
  - destruct (j - length qs) as [|?] eqn:Hdiff; [|done].
    injection Hj as <-. simpl. exists d. split_and!; try done.
    assert (j = length qs) as -> by lia.
    by rewrite take_app_length.
Qed.

Lemma normalize_loop_provenance items l :
  ∀ seen st, items = (seen ++ l)%list →
    st.2 = list_to_set (q_key <$> st.1) →
    provenance items st.1 →
    provenance items (normalize_loop (S (length seen)) l st).1.
Proof.
  induction l as [|q l IH]; intros seen st Hitems Hset Hprov; simpl; [done|].
  replace (S (S (length seen))) with (S (length (seen ++ [q])))
    by (rewrite length_app; simpl; lia).
  assert (items !! length seen = Some q) as Hq.
  { rewrite Hitems. by apply list_lookup_middle. }
  apply IH.
  - by rewrite <-app_assoc.
  - destruct (kept (S (length seen)) q) eqn:Hk.
    + destruct (normalize_step_keep st _ q Hk) as (d & _ & _ & ->).
      simpl. rewrite fmap_app, list_to_set_app_L, Hset. set_solver.
    + by rewrite normalize_step_skip.
  - destruct (kept (S (length seen)) q) eqn:Hk.
    + destruct (normalize_step_keep st _ q Hk) as (d & -> & Hlabel & ->).
      simpl. rewrite Hset. apply provenance_snoc; try done; [|lia].
      by replace (S (length seen) - 1) with (length seen) by lia.
    + by rewrite normalize_step_skip.
Qed.

Lemma normalize_questions_provenance raw :
  provenance (raw_items raw) (normalize_questions raw).
Proof.
  rewrite normalize_questions_loop.
  apply (normalize_loop_provenance _ _ []); [done|done|].
  intros j q Hj. done.
Qed.

Lemma normalize_loop_ids l :
  ∀ i st,
    q_id <$> (normalize_loop i l st).1 =
    ((q_id <$> st.1) ++ kept_positions i l)%list.
Proof.
  unfold kept_positions.
  induction l as [|q l IH]; intros i st; simpl.
  { by rewrite app_nil_r. }
  rewrite IH. destruct (kept i q) eqn:Hk.
  - destruct (normalize_step_keep st i q Hk) as (d & _ & _ & ->).
    rewrite filter_cons_True by done. simpl.
    by rewrite fmap_app, <-app_assoc.
  - rewrite normalize_step_skip by done.
    rewrite filter_cons_False; [done|]. simpl. by rewrite Hk.
Qed.

Lemma normalize_questions_ids raw :
  q_id <$> normalize_questions raw = kept_positions 1 (raw_items raw).
Proof. by rewrite normalize_questions_loop, normalize_loop_ids. Qed.

Lemma kept_positions_lower i l : Forall (λ n, i ≤ n) (kept_positions i l).
Proof.
  unfold kept_positions. revert i.
  induction l as [|q l IH]; intros i; simpl; [done|].
  assert (Forall (λ n, i ≤ n)
            (filter (λ iq, kept iq.1 iq.2 = true) (enumerate (S i) l)).*1).
  { eapply Forall_impl; [apply IH|]. simpl. lia. }
  destruct (kept i q) eqn:Hk.
  - rewrite filter_cons_True by done. simpl. by constructor.
  - rewrite filter_cons_False; [done|]. simpl. by rewrite Hk.
Qed.

Lemma kept_positions_increasing i l j1 j2 n1 n2 :
  kept_positions i l !! j1 = Some n1 →
  kept_positions i l !! j2 = Some n2 →
  j1 < j2 → n1 < n2.
Proof.
  revert i j1 j2. induction l as [|q l IH]; intros i j1 j2; [done|].
  unfold kept_positions. simpl.
  destruct (kept i q) eqn:Hk.
  - rewrite filter_cons_True by done. simpl.
    destruct j1 as [|j1], j2 as [|j2]; simpl; try lia.
    + intros [= <-] H2 _.
      pose proof (kept_positions_lower (S i) l) as Hlow.
      rewrite Forall_lookup in Hlow. specialize (Hlow _ _ H2). simpl in Hlow. lia.
    + intros H1 H2 ?. apply (IH (S i) j1 j2); [done|done|lia].
  - rewrite filter_cons_False; [|simpl; by rewrite Hk]. apply IH.
Qed.

(** ** Keys of the normalised questions *)

(** C1. For every input, the keys of the records [normalize_questions]
    returns are pairwise distinct and each matches [^[a-z0-9_]+$]; the
    key of a record is fresh among the earlier ones, it is the resolved
    key [base] when that was not emitted before, and otherwise the first
    of [base_2], [base_3], ... that was not. *)
Theorem normalize_questions_keys raw :
  NoDup (q_key <$> normalize_questions raw) ∧
  Forall (λ k, is_slug k = true) (q_key <$> normalize_questions raw) ∧
  ∀ j q, normalize_questions raw !! j = Some q →
    ∃ d, raw_items raw !! (q_id q - 1) = Some (JDict d) ∧
      let base := base_key (q_id q) (read_entry (q_id q) d) in
      let earlier := q_key <$> take j (normalize_questions raw) in
      q_key q ∉ earlier ∧
      (base ∉ earlier → q_key q = base) ∧
      (base ∈ earlier →
         ∃ n, 2 ≤ n ∧ q_key q = numbered_key base n ∧
           ∀ m, 2 ≤ m < n → numbered_key base m ∈ earlier).
Proof.
  pose proof (normalize_loop_keys (raw_items raw) 1 _ keys_inv_init)
    as (_ & Hnd & Hslug).
  rewrite <-normalize_questions_loop in Hnd, Hslug.
  split_and!; [done|done|].
  intros j q Hj.
  destruct (normalize_questions_provenance raw j q Hj) as (d & Hd & _ & _ & Hq).
  exists d. split; [done|]. simpl.
  set (base := base_key _ _) in *.
  set (earlier := q_key <$> take j _) in *.
  assert (q_key q = dedupe_key (list_to_set earlier) base) as ->
    by by rewrite Hq.
  destruct (dedupe_key_spec (list_to_set earlier) base)
    as (_ & Hfresh & Hfree & Hused).
  setoid_rewrite elem_of_list_to_set in Hused.
  rewrite elem_of_list_to_set in Hfresh, Hfree.
  done.
Qed.

Lemma normalize_questions_keys_witness :
  normalize_questions two_q !! 1 = Some (Question 3 "q_2" "q!" "" "text" true None) ∧
  ∃ d, raw_items two_q !! 2 = Some (JDict d) ∧
    "q_2" ∉ q_key <$> take 1 (normalize_questions two_q).
Proof.
  split; [vm_compute; reflexivity|].
  destruct (normalize_questions_keys two_q) as (_ & _ & Hkeys).
  destruct (Hkeys 1 (Question 3 "q_2" "q!" "" "text" true None))
    as (d & Hd & Hfresh & _); [vm_compute; reflexivity|].
  exists d. split; [exact Hd|exact Hfresh].
Defined.

(** ** Identifiers of the normalised questions *)

(** C2, as stated, fails: a record after a skipped element keeps its
    position in the source list as its id. *)
Lemma normalize_questions_ids_not_consecutive :
  ¬ (∀ raw, q_id <$> normalize_questions raw =
            seq 1 (length (normalize_questions raw))).
Proof. intros Hall. specialize (Hall skipped_first). vm_compute in Hall. done. Qed.

Lemma kept_positions_all i l :
  (∀ n q, l !! n = Some q → kept (i + n) q = true) →
  kept_positions i l = seq i (length l).
Proof.
  unfold kept_positions. revert i.
  induction l as [|q l IH]; intros i Hall; simpl; [done|].
  rewrite filter_cons_True.
  - simpl. f_equal. apply IH. intros n q' Hn.
    replace (S i + n) with (i + S n) by lia. by apply Hall.
  - simpl. specialize (Hall 0 q eq_refl). by rewrite Nat.add_0_r in Hall.
Qed.

(** C2, amended. The id of a record is the 1-based position in the
    source list of the mapping it was made from, the skipped elements
    being counted: the ids are the positions of the kept elements in
    order, they increase strictly, and they are 1, 2, 3, ... when no
    element is skipped. *)
Theorem normalize_questions_ids_positions raw :
  q_id <$> normalize_questions raw = kept_positions 1 (raw_items raw) ∧
  (∀ j q, normalize_questions raw !! j = Some q →
     1 ≤ q_id q ≤ length (raw_items raw) ∧
     ∃ d, raw_items raw !! (q_id q - 1) = Some (JDict d) ∧
          kept (q_id q) (JDict d) = true) ∧
  (∀ j1 j2 q1 q2, j1 < j2 →
     normalize_questions raw !! j1 = Some q1 →
     normalize_questions raw !! j2 = Some q2 →
     q_id q1 < q_id q2) ∧
  ((∀ n q, raw_items raw !! n = Some q → kept (S n) q = true) →
   q_id <$> normalize_questions raw = seq 1 (length (raw_items raw))).
Proof.
  split_and!.
  - apply normalize_questions_ids.
  - intros j q Hj.
    destruct (normalize_questions_provenance raw j q Hj)
      as (d & Hd & Hpos & Hlabel & _).
    split.
    + split; [done|]. apply lookup_lt_Some in Hd. lia.
    + exists d. split; [done|]. simpl. by rewrite Hlabel.
  - intros j1 j2 q1 q2 Hlt H1 H2.
    apply (kept_positions_increasing 1 (raw_items raw) j1 j2); [| |done];
      rewrite <-normalize_questions_ids, list_lookup_fmap.
    + by rewrite H1.
    + by rewrite H2.
  - intros Hall. rewrite normalize_questions_ids.
    by apply kept_positions_all.
Qed.

Lemma normalize_questions_ids_positions_witness :
  (0 < 1 ∧
   normalize_questions two_q !! 0 = Some (Question 1 "q" "Q" "" "text" true None) ∧
   normalize_questions two_q !! 1 = Some (Question 3 "q_2" "q!" "" "text" true None)) ∧
  1 < 3.
Proof.
  split; [split; [lia|split; vm_compute; reflexivity]|].
  destruct (normalize_questions_ids_positions two_q) as (_ & _ & Hinc & _).
  apply (Hinc 0 1 (Question 1 "q" "Q" "" "text" true None)
           (Question 3 "q_2" "q!" "" "text" true None));
    [lia|vm_compute; reflexivity|vm_compute; reflexivity].
Defined.

(** ** Legacy and new format *)

Lemma legacy_qtype_cases i d :
  is_new_format d = false →
  (has_nonempty_options d ∧ e_qtype (read_entry i d) = "choice") ∨
  (¬ has_nonempty_options d ∧ e_qtype (read_entry i d) = "text").
Proof.
  intros Hfmt. unfold read_entry, has_nonempty_options. rewrite Hfmt. simpl.
  unfold Py.get.
  destruct (Py.lookup d "options") as [v|] eqn:Hopt.
  - destruct v as [| | | | |l|]; simpl;
      try (right; split; [intros (? & ? & ?); done|done]).
    destruct l as [|o os]; simpl.
    + right. split; [intros (? & ? & ?); done|done].
    + left. split; [by exists o, os|done].
  - right. split; [intros (? & ? & ?); done|done].
Qed.

Lemma legacy_qtype i d :
  is_new_format d = false →
  (e_qtype (read_entry i d) = "choice" ↔ has_nonempty_options d) ∧
  (e_qtype (read_entry i d) = "text" ↔ ¬ has_nonempty_options d).
Proof.
  intros Hfmt.
  destruct (legacy_qtype_cases i d Hfmt) as [[Hopt ->]|[Hopt ->]].
  - split; split; try done.
  - split; split; done.
Qed.

Lemma default_required i d :
  Py.lookup d "required" = None →
  e_required (read_entry i d) = negb (is_new_format d).
Proof.
  intros Hreq. unfold read_entry, Py.get.
  destruct (is_new_format d); simpl; by rewrite Hreq.
Qed.

(** C5. A legacy-format entry is given type [choice] exactly when its
    [options] is a list with at least one element and type [text]
    otherwise; an entry without a [required] field is required when it
    is of the legacy format and not required when it is of the new
    one. Every record [normalize_questions] returns carries the type and
    the flag so given to the mapping at position [id] of the source
    list. *)
Theorem normalize_questions_legacy_defaults :
  (∀ i d, is_new_format d = false →
     (e_qtype (read_entry i d) = "choice" ↔ has_nonempty_options d) ∧
     (e_qtype (read_entry i d) = "text" ↔ ¬ has_nonempty_options d)) ∧
  (∀ i d, Py.lookup d "required" = None →
     e_required (read_entry i d) = negb (is_new_format d)) ∧
  (∀ raw j q, normalize_questions raw !! j = Some q →
     ∃ d, raw_items raw !! (q_id q - 1) = Some (JDict d) ∧
       q_type q = e_qtype (read_entry (q_id q) d) ∧
       q_required q = e_required (read_entry (q_id q) d) ∧
       (is_new_format d = false →
          (q_type q = "choice" ↔ has_nonempty_options d) ∧
          (q_type q = "text" ↔ ¬ has_nonempty_options d) ∧
          (Py.lookup d "required" = None → q_required q = true)) ∧
       (is_new_format d = true →
          Py.lookup d "required" = None → q_required q = false)).
Proof.
  split_and!.
  - apply legacy_qtype.
  - apply default_required.
  - intros raw j q Hj.
    destruct (normalize_questions_provenance raw j q Hj)
      as (d & Hd & _ & _ & Hq).
    exists d. split; [done|].
    assert (q_type q = e_qtype (read_entry (q_id q) d)) as Hty
      by by rewrite Hq.
    assert (q_required q = e_required (read_entry (q_id q) d)) as Hreq
      by by rewrite Hq.
    split_and!; [done|done| |].
    + intros Hfmt. rewrite Hty, Hreq.
      destruct (legacy_qtype (q_id q) d Hfmt) as [Hc Ht].
      split_and!; [done|done|].
      intros Hnone. by rewrite default_required, Hfmt.
    + intros Hfmt Hnone. by rewrite Hreq, default_required, Hfmt.
Qed.

Lemma normalize_questions_legacy_defaults_witness :
  normalize_questions legacy_age !! 0 =
    Some (Question 1 "age" "Age?" "" "text" true None) ∧
  ∃ d, raw_items legacy_age !! 0 = Some (JDict d) ∧
    (is_new_format d = false → "text" = "text" ↔ ¬ has_nonempty_options d).
Proof.
  split; [vm_compute; reflexivity|].
  destruct (proj2 (proj2 normalize_questions_legacy_defaults) legacy_age 0
              (Question 1 "age" "Age?" "" "text" true None))
    as (d & Hd & _ & _ & Hlegacy & _); [vm_compute; reflexivity|].
  exists d. split; [exact Hd|].
  intros Hfmt. exact (proj1 (proj2 (Hlegacy Hfmt))).
Defined.

(** ** [slugify] on its own *)

Lemma legacy_key i d :
  is_new_format d = false → key_field d = "" →
  e_key (read_entry i d) = slugify (e_label (read_entry i d)).
Proof.
  intros Hfmt Hkey. unfold read_entry. rewrite Hfmt. simpl.
  rewrite Hkey. simpl. unfold str_or.
  destruct (PyStr.is_empty (slugify _)) eqn:He; [|done].
  apply is_empty_true in He. by apply slugify_nonempty in He.
Qed.

Lemma given_key i d : key_field d ≠ "" → e_key (read_entry i d) = key_field d.
Proof.
  intros Hkey%is_empty_false. unfold read_entry.
  destruct (is_new_format d); simpl; [done|]. by rewrite Hkey.
Qed.

Lemma new_format_key i d :
  is_new_format d = true → e_key (read_entry i d) = key_field d.
Proof. intros Hfmt. unfold read_entry. by rewrite Hfmt. Qed.

(** C9. A string of non-alphanumeric characters only (none of them
    satisfies [str.isalnum]) slugifies to ["question"], and [slugify]
    never returns the empty string. So the fallback
    [slugify(label) or f"q{i}"] of the legacy branch always takes the
    slug of the label, and the key is the positional [q{i}] by fallback
    exactly for a new-format entry whose key field is empty, the one case
    in which nothing was slugified before. *)
Theorem slugify_fallbacks :
  (∀ s, no_alnum s = true → slugify s = "question") ∧
  (∀ s, slugify s ≠ "") ∧
  (∀ s i, str_or (slugify s) (positional_key i) = slugify s) ∧
  (∀ i d,
     (key_field d ≠ "" → base_key i (read_entry i d) = slugify (key_field d)) ∧
     (key_field d = "" → is_new_format d = false →
        base_key i (read_entry i d) = slugify (e_label (read_entry i d))) ∧
     (key_field d = "" → is_new_format d = true →
        base_key i (read_entry i d) = positional_key i)).
Proof.
  split_and!.
  - apply slugify_no_alnum.
  - apply slugify_nonempty.
  - intros s i. unfold str_or.
    destruct (PyStr.is_empty (slugify s)) eqn:He; [|done].
    apply is_empty_true in He. by apply slugify_nonempty in He.
  - intros i d. unfold base_key. split_and!.
    + intros Hkey. rewrite given_key by done.
      apply is_empty_false in Hkey. by rewrite Hkey.
    + intros Hkey Hfmt. rewrite legacy_key by done.
      destruct (PyStr.is_empty (slugify _)) eqn:He.
      { apply is_empty_true in He. by apply slugify_nonempty in He. }
      apply slugify_idem.
    + intros Hkey Hfmt. rewrite new_format_key, Hkey by done. simpl.
      apply slugify_positional_key.
Qed.

Lemma slugify_fallbacks_witness :
  no_alnum "?! ... _-+" = true ∧ slugify "?! ... _-+" = "question".
Proof.
  split; [reflexivity|].
  apply (proj1 slugify_fallbacks). reflexivity.
Defined.

(** C10. [slugify] is idempotent, and it leaves a key that is already
    in canonical form as it is. *)
Theorem slugify_idempotent :
  (∀ s, slugify (slugify s) = slugify s) ∧
  (∀ s, canonical s = true → slugify s = s).
Proof. split; [apply slugify_idem|apply slugify_fixed]. Qed.

Lemma slugify_idempotent_witness :
  canonical "nom_de_famille" = true ∧ slugify "nom_de_famille" = "nom_de_famille".
Proof.
  split; [reflexivity|].
  apply (proj2 slugify_idempotent). reflexivity.
Defined.

(** ** The validation pass *)

Section validation.
Context `{PyLib}.

Lemma validate_step_split form st q :
  validate_step form st q =
  (step_answers form q ∪ st.1, (st.2 ++ step_errors form q)%list).
Proof.
  unfold step_answers, step_errors, validate_step.
  destruct (q_required q && PyStr.is_empty (read_value form q)); simpl.
  { by rewrite (left_id_L ∅ (∪)). }
  destruct (PyStr.is_empty (read_value form q)); simpl.
  { by rewrite insert_empty, <-insert_union_singleton_l, app_nil_r. }
  destruct (type_error q (read_value form q)); simpl.
  - by rewrite (left_id_L ∅ (∪)).
  - by rewrite insert_empty, <-insert_union_singleton_l, app_nil_r.
Qed.

Lemma validate_from_split form qs :
  ∀ st, validate_from form st qs =
        ((validate form qs).1 ∪ st.1, (st.2 ++ (validate form qs).2)%list).
Proof.
  unfold validate, validate_from.
  induction qs as [|q qs IH]; intros st; simpl.
  { by rewrite (left_id_L ∅ (∪)), app_nil_r; destruct st. }
  rewrite IH, (IH (validate_step _ _ _)).
  rewrite (validate_step_split form st), (validate_step_split form (∅, [])).
  simpl. rewrite (right_id_L ∅ (∪)), (assoc_L (∪)), app_assoc. done.
Qed.

Lemma validate_cons form q qs :
  validate form (q :: qs) =
  ((validate form qs).1 ∪ step_answers form q,
   (step_errors form q ++ (validate form qs).2)%list).
Proof.
  unfold validate at 1. unfold validate_from. simpl.
  fold (validate_from form (validate_step form (∅, []) q) qs).
  rewrite validate_from_split. done.
Qed.

Lemma validate_app form qs1 qs2 :
  validate form (qs1 ++ qs2) =
  ((validate form qs2).1 ∪ (validate form qs1).1,
   ((validate form qs1).2 ++ (validate form qs2).2)%list).
Proof.
  unfold validate at 1. unfold validate_from. rewrite foldl_app.
  fold (validate_from form (∅, []) qs1). fold (validate form qs1).
  fold (validate_from form (validate form qs1) qs2).
  apply validate_from_split.
Qed.

(** A question adds an error and no answer, or one answer under its
    key and no error. *)
Lemma step_verdict form q :
  (step_answers form q = ∅ ∧ ∃ msg, step_errors form q = [msg]) ∨
  (step_errors form q = [] ∧
   ∃ v, step_answers form q = {[q_key q := v]}).
Proof.
  unfold step_answers, step_errors, validate_step.
  destruct (q_required q && PyStr.is_empty (read_value form q)); simpl.
  { left. eauto. }
  destruct (PyStr.is_empty (read_value form q)); simpl.
  { right. split; [done|]. eexists. by rewrite insert_empty. }
  destruct (type_error q (read_value form q)); simpl.
  - left. eauto.
  - right. split; [done|]. eexists. by rewrite insert_empty.
Qed.

Lemma validate_dom_subseteq form qs :
  dom (validate form qs).1 ⊆ list_to_set (q_key <$> qs).
Proof.
  induction qs as [|q qs IH]; [set_solver|].
  rewrite validate_cons. simpl. rewrite dom_union_L.
  destruct (step_verdict form q) as [[-> _]|[_ [v ->]]].
  - rewrite dom_empty_L. set_solver.
  - rewrite dom_singleton_L. set_solver.
Qed.

Lemma validate_dom_no_errors form qs :
  (validate form qs).2 = [] →
  dom (validate form qs).1 = list_to_set (q_key <$> qs).
Proof.
  induction qs as [|q qs IH]; [set_solver|].
  rewrite validate_cons. simpl.
  intros [Hq Hqs]%app_eq_nil. rewrite dom_union_L, (IH Hqs).
  destruct (step_verdict form q) as [[_ [msg Hmsg]]|[_ [v ->]]].
  - by rewrite Hmsg in Hq.
  - rewrite dom_singleton_L. set_solver.
Qed.

Lemma required_empty_step form st q :
  q_required q = true → read_value form q = "" →
  validate_step form st q =
  (st.1, (st.2 ++ [msg_required (q_label q)])%list).
Proof. intros Hreq Hval. unfold validate_step. by rewrite Hreq, Hval. Qed.

End validation.

(** ** Required and number questions *)

Section checks.
Context `{PyLib}.

(** C7. A required question whose value is empty records exactly one
    error, ['{label}' est obligatoire.], and no answer; the questions
    before and after it are evaluated as without it, their errors
    standing around this one, and no answer is stored under its key
    when no other question has that key. *)
Theorem required_empty_collected form pre q post :
  q_required q = true → read_value form q = "" →
  step_errors form q = [msg_required (q_label q)] ∧
  step_answers form q = ∅ ∧
  (validate form (pre ++ q :: post)).2 =
    ((validate form pre).2 ++ [msg_required (q_label q)]
       ++ (validate form post).2)%list ∧
  (validate form (pre ++ q :: post)).1 = (validate form (pre ++ post)).1 ∧
  (q_key q ∉ q_key <$> (pre ++ post)%list →
   (validate form (pre ++ q :: post)).1 !! q_key q = None).
Proof.
  intros Hreq Hval.
  assert (step_errors form q = [msg_required (q_label q)]
          ∧ step_answers form q = ∅) as [He Ha].
  { unfold step_errors, step_answers.
    by rewrite required_empty_step. }
  assert ((validate form (pre ++ q :: post)).1
          = (validate form (pre ++ post)).1) as Hsame.
  { rewrite !validate_app, validate_cons. simpl.
    by rewrite Ha, (right_id_L ∅ (∪)). }
  split_and!; try done.
  - rewrite validate_app, validate_cons. simpl. by rewrite He.
  - intros Hkey. rewrite Hsame. apply not_elem_of_dom.
    intros Hin%validate_dom_subseteq. by apply elem_of_list_to_set in Hin.
Qed.

Lemma number_step form q :
  q_type q = "number" → read_value form q ≠ "" →
  (float_parses (PyStr.replace_char comma dot (read_value form q)) = true ∧
   step_errors form q = [] ∧
   step_answers form q = {[q_key q := read_value form q]}) ∨
  (float_parses (PyStr.replace_char comma dot (read_value form q)) = false ∧
   step_errors form q = [msg_number (q_label q)] ∧
   step_answers form q = ∅).
Proof.
  intros Hty Hval%is_empty_false.
  unfold step_errors, step_answers, validate_step, type_error.
  rewrite Hval, andb_false_r, Hty. simpl.
  destruct (float_parses _); simpl.
  - left. by rewrite insert_empty.
  - right. done.
Qed.

(** C8. A number question with a non-empty value is accepted exactly
    when the value, its commas replaced by dots, parses as a float;
    accepted, the value is stored as submitted; otherwise the error is
    ['{label}' doit être un nombre valide.], spelt out in the statement
    (the character 234 is the e with circumflex). So ["12,5"] is
    accepted exactly when ["12.5"] is. *)
Theorem number_accepted_iff_float q :
  q_type q = "number" →
  (∀ form, read_value form q ≠ "" →
     (accepted form q ↔
      float_parses (PyStr.replace_char comma dot (read_value form q)) = true) ∧
     (accepted form q →
      step_answers form q = {[q_key q := read_value form q]}) ∧
     (¬ accepted form q →
      step_errors form q =
        ["'" +:+ q_label q +:+ "' doit " +:+
         String "234" "tre un nombre valide."] ∧
      step_answers form q = ∅)) ∧
  (∀ form1 form2,
     read_value form1 q = "12,5" → read_value form2 q = "12.5" →
     (accepted form1 q ↔ accepted form2 q)).
Proof.
  intros Hty.
  assert (∀ form, read_value form q ≠ "" →
            (accepted form q ↔
             float_parses (PyStr.replace_char comma dot (read_value form q))
             = true)) as Hiff.
  { intros form Hval. unfold accepted.
    destruct (number_step form q Hty Hval) as [(Hp & -> & _)|(Hp & -> & _)];
      rewrite Hp; split; done. }
  split.
  - intros form Hval. split_and!.
    + by apply Hiff.
    + unfold accepted.
      destruct (number_step form q Hty Hval) as [(_ & _ & ->)|(_ & -> & _)];
        done.
    + unfold accepted.
      destruct (number_step form q Hty Hval) as [(_ & -> & _)|(_ & -> & ->)];
        done.
  - intros form1 form2 H1 H2.
    rewrite (Hiff form1), (Hiff form2) by (by rewrite ?H1, ?H2).
    by rewrite H1, H2.
Qed.

End checks.

Lemma required_empty_collected_witness :
  (q_required text_q = true ∧
   read_value [("poids", "12,5"); ("nom", "   ")] text_q = "") ∧
  (@validate RefLib.lib [("poids", "12,5"); ("nom", "   ")]
     ([number_q] ++ text_q :: [])).2 = ["'Nom' est obligatoire."].
Proof.
  split; [split; reflexivity|].
  destruct (@required_empty_collected RefLib.lib
              [("poids", "12,5"); ("nom", "   ")] [number_q] text_q [])
    as (_ & _ & Herr & _); [reflexivity|reflexivity|].
  exact Herr.
Defined.

Lemma number_accepted_iff_float_witness :
  (q_type number_q = "number" ∧
   read_value [("poids", " 12,5 ")] number_q ≠ "" ∧
   read_value [("poids", "douze")] number_q ≠ "" ∧
   ¬ @accepted RefLib.lib [("poids", "douze")] number_q) ∧
  (@accepted RefLib.lib [("poids", " 12,5 ")] number_q ↔
   RefLib.float_ok "12.5" = true) ∧
  @step_errors RefLib.lib [("poids", "douze")] number_q =
    ["'Poids' doit " +:+ String "234" "tre un nombre valide."].
Proof.
  assert (¬ @accepted RefLib.lib [("poids", "douze")] number_q) as Hrefused.
  { unfold accepted. vm_compute. discriminate. }
  split; [split_and!; [reflexivity|discriminate|discriminate|exact Hrefused]|].
  destruct (@number_accepted_iff_float RefLib.lib number_q) as [Hforms _];
    [reflexivity|].
  split.
  - destruct (Hforms [("poids", " 12,5 ")]) as (Hiff & _); [discriminate|].
    exact Hiff.
  - destruct (Hforms [("poids", "douze")]) as (_ & _ & Hmsg); [discriminate|].
    exact (proj1 (Hmsg Hrefused)).
Defined.

(** ** Loading and the view *)

Lemma flash_all_flashes msgs category w :
  flashes (flash_all msgs category w) =
  (flashes w ++ ((λ m, (m, category)) <$> msgs))%list.
Proof.
  unfold flash_all. revert w.
  induction msgs as [|m msgs IH]; intros w; simpl.
  { by rewrite app_nil_r. }
  rewrite IH. simpl. by rewrite <-app_assoc.
Qed.

Lemma flash_all_results msgs category w :
  results (flash_all msgs category w) = results w.
Proof.
  unfold flash_all. revert w.
  induction msgs as [|m msgs IH]; intros w; simpl; [done|]. by rewrite IH.
Qed.

Lemma answer_row_lookup ctx answers qs k :
  k ∈ q_key <$> qs →
  answer_row ctx qs answers !! k = Some (default "" (answers !! k)).
Proof.
  unfold answer_row. generalize (<["user_email" := email (current_user ctx)]>
    (<["user_name" := first_name (current_user ctx)]>
       (<["user_id" := pretty (user_id (current_user ctx))]>
          (<["date" := today ctx]> (∅ : gmap string string))))).
  induction qs as [|q qs IH] using rev_ind; intros row0 Hk.
  { by apply elem_of_nil in Hk. }
  rewrite foldl_app. simpl.
  destruct (decide (q_key q = k)) as [<-|Hne].
  - by rewrite lookup_insert_eq.
  - rewrite lookup_insert_ne by done. apply IH.
    rewrite fmap_app in Hk. apply elem_of_app in Hk as [Hk|Hk]; [done|].
    apply list_elem_of_singleton in Hk. simpl in Hk. congruence.
Qed.

Lemma written_row_cell ctx answers qs j q :
  qs !! j = Some q →
  written_row (fieldnames qs) (answer_row ctx qs answers) !! (4 + j) =
  Some (default "" (answers !! q_key q)).
Proof.
  intros Hj. unfold written_row, fieldnames.
  rewrite list_lookup_fmap, lookup_app_r by (simpl; lia).
  replace (4 + j - length fixed_fields) with j by (simpl; lia).
  rewrite list_lookup_fmap, Hj. simpl. f_equal.
  rewrite answer_row_lookup; [done|].
  apply list_elem_of_fmap. exists q. split; [done|].
  by apply list_elem_of_lookup_2 in Hj.
Qed.

Lemma msg_not_found_ne qid : msg_not_found qid ≠ msg_unreadable.
Proof. unfold msg_not_found, msg_unreadable. simpl_app. discriminate. Qed.

Section view_properties.
Context `{PyLib}.

(** C3. On a submission to a questionnaire that has questions: when
    the validation pass records an error, no result log changes, every
    error is flashed in order and the form is rendered again; when it
    records none, the accepted answers have exactly the question keys
    as entries and one row is appended to the log of the
    questionnaire (after the header when the log is new), whose cell
    for each question is the accepted answer. *)
Theorem questionnaire_post_persists ctx submitted qid w questions :
  load_questions (definitions w) qid = Some questions → questions ≠ [] →
  let answers := (validate submitted questions).1 in
  let errors := (validate submitted questions).2 in
  let out := questionnaire ctx (Request POST submitted) qid w in
  (errors ≠ [] →
     results out.2 = results w ∧
     flashes out.2 = (flashes w ++ ((λ m, (m, "error")) <$> errors))%list ∧
     out.1 = Render "quiz.html" questions qid) ∧
  (errors = [] →
     dom answers = list_to_set (q_key <$> questions) ∧
     results out.2 = save_answers ctx qid questions answers (results w) ∧
     (∃ row,
        results out.2 !! qid =
          Some (default [] (results w !! qid)
                ++ (if bool_decide (is_Some (results w !! qid))
                    then [] else [fieldnames questions])
                ++ [row])%list ∧
        length row = 4 + length questions ∧
        ∀ j q, questions !! j = Some q →
               row !! (4 + j) = answers !! q_key q) ∧
     (∀ other, other ≠ qid → results out.2 !! other = results w !! other) ∧
     flashes out.2 = (flashes w ++ [(msg_thanks, "success")])%list ∧
     out.1 = Redirect "views.quiz").
Proof.
  intros Hload Hne. cbv zeta. unfold questionnaire. rewrite Hload.
  destruct questions as [|q0 qs]; [done|]. cbn [method form].
  destruct (validate submitted (q0 :: qs)) as [answers errors] eqn:Hval.
  cbn [fst snd]. split.
  - intros Herr. destruct errors as [|e errors]; [done|].
    cbn [fst snd]. rewrite flash_all_results, flash_all_flashes. done.
  - intros ->. cbn [fst snd flash set_results results flashes].
    assert (dom answers = list_to_set (q_key <$> q0 :: qs)) as Hdom.
    { change answers with (answers, @nil string).1. rewrite <-Hval.
      apply validate_dom_no_errors. by rewrite Hval. }
    split_and!; try done.
    + exists (written_row (fieldnames (q0 :: qs))
                (answer_row ctx (q0 :: qs) answers)).
      unfold save_answers. rewrite lookup_insert_eq.
      split_and!; [done| |].
      * unfold written_row, fieldnames.
        rewrite length_fmap, length_app, length_fmap. done.
      * intros j q Hj. rewrite (written_row_cell ctx answers _ j q Hj).
        assert (is_Some (answers !! q_key q)) as [v Hv].
        { apply elem_of_dom. rewrite Hdom. apply elem_of_list_to_set.
          apply list_elem_of_fmap. exists q. split; [done|].
          by apply list_elem_of_lookup_2 in Hj. }
        by rewrite Hv.
    + intros other Hother. unfold save_answers.
      by rewrite lookup_insert_ne.
Qed.

(** On files that are read to the end or refused with
    [JSONDecodeError], [load_questions] returns [None] exactly for an
    identifier without a definition file and the empty list for a file
    that does not parse, and the view reports the two with different
    messages. *)
Theorem load_questions_missing_or_unparseable :
  (∀ defs qid, defs !! qid = None ↔ load_questions defs qid = None) ∧
  (∀ defs qid,
     defs !! qid = Some Unparseable → load_questions defs qid = Some []) ∧
  (∀ ctx req qid w, definitions w !! qid = None →
     questionnaire ctx req qid w =
     (Redirect "views.quiz", flash (msg_not_found qid) "error" w)) ∧
  (∀ ctx req qid w, definitions w !! qid = Some Unparseable →
     questionnaire ctx req qid w =
     (Redirect "views.quiz", flash msg_unreadable "error" w)) ∧
  (∀ qid, msg_not_found qid ≠ msg_unreadable).
Proof.
  split_and!.
  - intros defs qid. unfold load_questions.
    destruct (defs !! qid) as [[|raw]|]; done.
  - intros defs qid Hq. unfold load_questions. by rewrite Hq.
  - intros ctx req qid w Hq. unfold questionnaire, load_questions.
    by rewrite Hq.
  - intros ctx req qid w Hq. unfold questionnaire, load_questions.
    by rewrite Hq.
  - apply msg_not_found_ne.
Qed.

End view_properties.

Lemma questionnaire_post_persists_witness :
  (load_questions (definitions start_world) "sondage" =
     Some [Question 1 "poids" "Poids" "" "number" true None] ∧
   [Question 1 "poids" "Poids" "" "number" true None] ≠ [] ∧
   (@validate RefLib.lib [("poids", "abc")]
      [Question 1 "poids" "Poids" "" "number" true None]).2 ≠ []) ∧
  results (@questionnaire RefLib.lib alice (Request POST [("poids", "abc")])
             "sondage" start_world).2 = results start_world.
Proof.
  split; [split_and!; [vm_compute; reflexivity|discriminate|]|].
  { vm_compute. discriminate. }
  destruct (@questionnaire_post_persists RefLib.lib alice [("poids", "abc")]
              "sondage" start_world
              [Question 1 "poids" "Poids" "" "number" true None])
    as [Hrej _]; [vm_compute; reflexivity|discriminate|].
  apply Hrej. vm_compute. discriminate.
Defined.

Lemma load_questions_missing_or_unparseable_witness :
  (one_definition !! "absent" = None ∧
   one_definition !! "casse" = Some Unparseable) ∧
  load_questions one_definition "absent" = None ∧
  load_questions one_definition "casse" = Some [].
Proof.
  split; [split; vm_compute; reflexivity|].
  destruct (@load_questions_missing_or_unparseable RefLib.lib)
    as (Hmissing & Hbroken & _).
  split.
  - apply Hmissing. vm_compute. reflexivity.
  - apply Hbroken. vm_compute. reflexivity.
Defined.

(** ** Joining and splitting the selections of a multi question *)

Lemma str_app_assoc (a b c : string) : (a +:+ b) +:+ c = a +:+ (b +:+ c).
Proof. induction a as [|x a IH]; [done|]. simpl_app. by rewrite IH. Qed.

Lemma contains_app c (a b : string) :
  PyStr.contains c (a +:+ b) = PyStr.contains c a || PyStr.contains c b.
Proof.
  induction a as [|x a IH]; [done|]. simpl_app. simpl.
  by rewrite IH, orb_assoc.
Qed.

Lemma split_no_sep sep s : PyStr.contains sep s = false → PyStr.split sep s = [s].
Proof.
  induction s as [|c r IH]; simpl; [done|].
  intros [Hc Hr]%orb_false_iff. by rewrite Hc, (IH Hr).
Qed.

Lemma split_app_sep sep a b :
  PyStr.contains sep a = false →
  PyStr.split sep (a +:+ String sep b) = a :: PyStr.split sep b.
Proof.
  induction a as [|c r IH]; simpl_app; simpl.
  - intros _. by rewrite Ascii.eqb_refl.
  - intros [Hc Hr]%orb_false_iff. by rewrite Hc, (IH Hr).
Qed.

Lemma rstrip_all p s : PyStr.forallb_str p s = true → PyStr.rstrip p s = "".
Proof.
  induction s as [|c r IH]; simpl; [done|].
  intros [Hc Hr]%andb_true_iff. by rewrite (IH Hr), Hc.
Qed.

Lemma lstrip_app_all p pad s :
  PyStr.forallb_str p pad = true → PyStr.lstrip p (pad +:+ s) = PyStr.lstrip p s.
Proof.
  induction pad as [|c r IH]; simpl_app; simpl; [done|].
  intros [Hc Hr]%andb_true_iff. by rewrite Hc, (IH Hr).
Qed.

Lemma rstrip_app_all p s pad :
  PyStr.forallb_str p pad = true → PyStr.rstrip p (s +:+ pad) = PyStr.rstrip p s.
Proof.
  intros Hpad. induction s as [|c r IH]; simpl_app; simpl.
  - by apply rstrip_all.
  - by rewrite IH.
Qed.

Lemma starts_with_app p s t :
  s ≠ "" → starts_with p (s +:+ t) = starts_with p s.
Proof. by destruct s. Qed.

Lemma trimmed_ends v :
  PyStr.strip v = v →
  starts_with PyStr.is_space v = false ∧ ends_with PyStr.is_space v = false.
Proof.
  intros <-. split; [apply strip_chars_starts|apply strip_chars_ends].
Qed.

Lemma strip_padded pad1 v pad2 :
  PyStr.forallb_str PyStr.is_space pad1 = true →
  PyStr.forallb_str PyStr.is_space pad2 = true →
  PyStr.strip v = v → v ≠ "" →
  PyStr.strip (pad1 +:+ v +:+ pad2) = v.
Proof.
  intros H1 H2 Hv Hne. destruct (trimmed_ends v Hv) as [Hs He].
  unfold PyStr.strip, PyStr.strip_chars.
  rewrite lstrip_app_all by done.
  rewrite lstrip_fixed by by rewrite starts_with_app.
  rewrite rstrip_app_all by done. by apply rstrip_fixed.
Qed.

Lemma stripped_nonempty_cons v l :
  PyStr.strip v ≠ "" →
  stripped_nonempty (v :: l) = PyStr.strip v :: stripped_nonempty l.
Proof.
  intros Hv%is_empty_false. unfold stripped_nonempty.
  by rewrite filter_cons_True.
Qed.

Lemma stripped_nonempty_plain sel :
  Forall plain_choice sel → stripped_nonempty sel = sel.
Proof.
  induction 1 as [|v l (Hv & Hne & _) _ IH]; [done|].
  rewrite stripped_nonempty_cons by by rewrite Hv. by rewrite Hv, IH.
Qed.

Lemma join_cons2 sep x y l :
  PyStr.join sep (x :: y :: l) = x +:+ sep +:+ PyStr.join sep (y :: l).
Proof. done. Qed.

Lemma chosen_of_join sel :
  Forall plain_choice sel → sel ≠ [] →
  ∀ pad, PyStr.forallb_str PyStr.is_space pad = true →
         PyStr.contains pipe pad = false →
    stripped_nonempty (PyStr.split pipe (pad +:+ PyStr.join " | " sel)) = sel.
Proof.
  induction 1 as [|x l (Hx & Hne & Hpipe) Hl IH]; [done|].
  intros _ pad Hpad Hpadpipe. destruct l as [|y l].
  - simpl. rewrite split_no_sep by by rewrite contains_app, Hpadpipe, Hpipe.
    rewrite <-(str_app_nil_r x) at 1.
    rewrite stripped_nonempty_cons; rewrite strip_padded; done.
  - rewrite join_cons2.
    change (" | " +:+ PyStr.join " | " (y :: l))
      with (" " +:+ String pipe (" " +:+ PyStr.join " | " (y :: l))).
    rewrite <-!str_app_assoc.
    rewrite split_app_sep
      by by rewrite !contains_app, Hpadpipe, Hpipe.
    rewrite str_app_assoc.
    rewrite stripped_nonempty_cons; rewrite strip_padded; try done.
    f_equal. by apply IH.
Qed.

Lemma ends_with_app p s t :
  t ≠ "" → ends_with p (s +:+ t) = ends_with p t.
Proof.
  intros Ht. induction s as [|c r IH]; [done|]. simpl_app. simpl.
  rewrite IH. destruct (r +:+ t) eqn:Hrt; [|done].
  destruct r; [by destruct t|discriminate].
Qed.

Lemma join_plain_nonempty sel :
  Forall plain_choice sel → sel ≠ [] → PyStr.join " | " sel ≠ "".
Proof.
  intros [|x l (_ & Hne & _) _] ?; [done|].
  destruct l; simpl; [done|]. by destruct x.
Qed.

Lemma join_plain_trimmed sel :
  Forall plain_choice sel →
  PyStr.strip (PyStr.join " | " sel) = PyStr.join " | " sel.
Proof.
  intros Hsel. apply strip_chars_fixed.
  - destruct Hsel as [|x l (Hx & Hne & _) Hl]; [done|].
    destruct l; simpl.
    + by apply trimmed_ends.
    + rewrite starts_with_app by done. by apply trimmed_ends.
  - induction Hsel as [|x l (Hx & Hne & _) Hl IH]; [done|].
    destruct l as [|y l].
    + simpl. by apply trimmed_ends.
    + rewrite join_cons2.
      pose proof (join_plain_nonempty (y :: l) Hl) as HJ.
      rewrite !ends_with_app; [done|by apply HJ|].
      simpl_app. done.
Qed.

(** ** The round trip of a multi answer *)

Lemma filter_none {A} (P : A → Prop) `{∀ x, Decision (P x)} (l : list A) :
  Forall (λ x, ¬ P x) l → filter P l = [].
Proof.
  induction 1 as [|x l Hx _ IH]; [done|]. by rewrite filter_cons_False.
Qed.

Lemma read_value_multi form q sel :
  q_type q = "multi" → Forall plain_choice sel →
  form_getlist form (q_key q +:+ "[]") = sel →
  read_value form q = PyStr.join " | " sel.
Proof.
  intros Hty Hsel Hform. unfold read_value. rewrite Hty, Hform.
  change ("multi" =? "multi")%string with true. cbv iota.
  rewrite stripped_nonempty_plain by done. by apply join_plain_trimmed.
Qed.

Lemma read_value_multi_stored form q sel :
  q_type q = "multi" → Forall plain_choice sel →
  form_getlist form (q_key q +:+ "[]") = [PyStr.join " | " sel] →
  read_value form q = PyStr.join " | " sel.
Proof.
  intros Hty Hsel Hform. unfold read_value. rewrite Hty, Hform.
  change ("multi" =? "multi")%string with true. cbv iota.
  destruct sel as [|x l]; [reflexivity|].
  pose proof (join_plain_trimmed _ Hsel) as Htrim.
  rewrite stripped_nonempty_cons.
  - rewrite Htrim.
    change (PyStr.join " | " [PyStr.join " | " (x :: l)])
      with (PyStr.join " | " (x :: l)).
    exact Htrim.
  - rewrite Htrim. by apply join_plain_nonempty.
Qed.

Section round_trip.
Context `{PyLib}.

Lemma type_error_multi q value :
  q_type q = "multi" →
  type_error q value =
  if negb (bool_decide (declared_options q = [])) then
    if negb (bool_decide
               (filter (λ v, PyStr.mem v (declared_options q) = false)
                  (stripped_nonempty (PyStr.split pipe value)) = []))
    then Some (msg_multi (q_label q)) else None
  else None.
Proof. unfold type_error. intros ->. reflexivity. Qed.

Lemma multi_type_ok q opts sel :
  q_type q = "multi" → q_options q = Some opts →
  Forall plain_choice sel → Forall (λ v, v ∈ opts) sel → sel ≠ [] →
  type_error q (PyStr.join " | " sel) = None.
Proof.
  intros Hty Hopts Hplain Hmem Hne.
  rewrite type_error_multi by done.
  unfold declared_options. rewrite Hopts. cbn [default].
  pose proof (chosen_of_join sel Hplain Hne "" eq_refl eq_refl) as Hchosen.
  rewrite str_app_nil in Hchosen. rewrite Hchosen.
  rewrite filter_none; [by destruct (negb _)|].
  eapply Forall_impl; [exact Hmem|]. intros v Hv.
  unfold PyStr.mem. by rewrite bool_decide_eq_true_2.
Qed.

Lemma multi_value_accepted form q opts sel :
  q_type q = "multi" → q_options q = Some opts →
  Forall plain_choice sel → Forall (λ v, v ∈ opts) sel →
  sel ≠ [] ∨ q_required q = false →
  read_value form q = PyStr.join " | " sel →
  step_errors form q = [] ∧
  step_answers form q = {[q_key q := PyStr.join " | " sel]}.
Proof.
  intros Hty Hopts Hplain Hmem Hsome Hval.
  unfold step_errors, step_answers, validate_step. rewrite Hval.
  destruct (decide (sel = [])) as [->|Hne].
  { destruct Hsome as [?|Hreq]; [done|]. rewrite Hreq.
    cbn. by rewrite insert_empty. }
  assert (PyStr.is_empty (PyStr.join " | " sel) = false) as Hempty.
  { by apply is_empty_false, join_plain_nonempty. }
  rewrite Hempty, andb_false_r.
  rewrite (multi_type_ok q opts sel) by done.
  cbn [fst snd]. by rewrite insert_empty.
Qed.

(** C6, amended. For a multi question with declared options, a
    submission whose selections are options, trimmed, not empty and
    without the character [|] (at least one of them when the question
    is required) is accepted and stored as the selections joined with
    [" | "]; submitting the stored string as the only selection is
    accepted against the same options and stores the same string. *)
Theorem multi_round_trip q opts sel form1 form2 :
  q_type q = "multi" → q_options q = Some opts →
  Forall plain_choice sel → Forall (λ v, v ∈ opts) sel →
  sel ≠ [] ∨ q_required q = false →
  form_getlist form1 (q_key q +:+ "[]") = sel →
  form_getlist form2 (q_key q +:+ "[]") = [PyStr.join " | " sel] →
  accepted form1 q ∧
  step_answers form1 q = {[q_key q := PyStr.join " | " sel]} ∧
  accepted form2 q ∧
  step_answers form2 q = {[q_key q := PyStr.join " | " sel]}.
Proof.
  intros Hty Hopts Hplain Hmem Hsome Hform1 Hform2.
  destruct (multi_value_accepted form1 q opts sel) as [He1 Ha1]; try done.
  { by apply read_value_multi. }
  destruct (multi_value_accepted form2 q opts sel) as [He2 Ha2]; try done.
  by apply read_value_multi_stored.
Qed.

End round_trip.

(** C6, as stated, fails. An option that holds [|] is a trimmed member
    of the options, yet the value joined from it is split at that
    character before the membership test, and the selection is
    rejected; and no selection at all, on a required question, is
    rejected as missing. *)
Lemma multi_round_trip_fails :
  (q_type multi_piped = "multi" ∧
   "A|B" ∈ declared_options multi_piped ∧ PyStr.strip "A|B" = "A|B" ∧
   form_getlist [("pair[]", "A|B")] "pair[]" = ["A|B"] ∧
   @validate RefLib.lib [("pair[]", "A|B")] [multi_piped] =
     (∅, [msg_multi "Paire"]) ∧
   ¬ @accepted RefLib.lib [("pair[]", "A|B")] multi_piped) ∧
  (q_type multi_ab = "multi" ∧ q_required multi_ab = true ∧
   form_getlist [] "langs[]" = [] ∧
   @validate RefLib.lib [] [multi_ab] = (∅, [msg_required "Langues"]) ∧
   ¬ @accepted RefLib.lib [] multi_ab).
Proof.
  split; split_and!; try (vm_compute; reflexivity).
  - unfold declared_options. simpl. constructor.
  - unfold accepted. vm_compute. discriminate.
  - unfold accepted. vm_compute. discriminate.
Qed.

Lemma multi_round_trip_witness :
  (q_type multi_ab = "multi" ∧ q_options multi_ab = Some ["A"; "B"; "C"] ∧
   Forall plain_choice ["A"; "B"] ∧ Forall (λ v, v ∈ ["A"; "B"; "C"]) ["A"; "B"] ∧
   (["A"; "B"] ≠ [] ∨ q_required multi_ab = false) ∧
   form_getlist [("langs[]", "A"); ("nom", "x"); ("langs[]", "B")]
     (q_key multi_ab +:+ "[]") = ["A"; "B"] ∧
   form_getlist [("langs[]", "A | B")] (q_key multi_ab +:+ "[]") =
     [PyStr.join " | " ["A"; "B"]]) ∧
  @step_answers RefLib.lib
    [("langs[]", "A"); ("nom", "x"); ("langs[]", "B")] multi_ab =
    {[ "langs" := "A | B" ]} ∧
  @accepted RefLib.lib [("langs[]", "A | B")] multi_ab.
Proof.
  assert (Forall plain_choice ["A"; "B"]) as Hplain.
  { repeat constructor; discriminate. }
  assert (Forall (λ v, v ∈ ["A"; "B"; "C"]) ["A"; "B"]) as Hmem.
  { repeat constructor. }
  split.
  { split_and!; try reflexivity; [exact Hplain|exact Hmem|left; discriminate]. }
  destruct (@multi_round_trip RefLib.lib multi_ab ["A"; "B"; "C"] ["A"; "B"]
              [("langs[]", "A"); ("nom", "x"); ("langs[]", "B")]
              [("langs[]", "A | B")])
    as (_ & Hstored & Hagain & _);
    try reflexivity; [exact Hplain|exact Hmem|left; discriminate|].
  split; [exact Hstored|exact Hagain].
Defined.

(** * Further properties *)

(** ** The shape of the normalised records *)

Lemma strip_idem s : PyStr.strip (PyStr.strip s) = PyStr.strip s.
Proof.
  apply strip_chars_fixed; [apply strip_chars_starts|apply strip_chars_ends].
Qed.

Lemma slug_trimmed s :
  PyStr.forallb_str is_slug_char s = true → PyStr.strip s = s.
Proof.
  intros Hs. apply strip_chars_fixed.
  - eapply forallb_starts_false; [apply slug_char_not_space|done].
  - eapply forallb_ends_false; [apply slug_char_not_space|done].
Qed.

Lemma canonical_parts s :
  canonical s = true →
  s ≠ "" ∧ PyStr.forallb_str is_slug_char s = true ∧
  single_underscores false s = true ∧
  starts_with is_underscore s = false ∧ ends_with is_underscore s = false.
Proof.
  unfold canonical. rewrite !andb_true_iff, !negb_true_iff.
  intros [[[[Hne Hall] Hsingle] Hstart] Hend].
  split_and!; try done. by apply is_empty_false.
Qed.

Lemma pretty_N_go_nonempty x s : s ≠ "" → pretty_N_go x s ≠ "".
Proof.
  revert s. induction (N.lt_wf_0 x) as [x _ IH]; intros s Hs.
  destruct (decide (x = 0)%N) as [->|Hx].
  - by rewrite pretty_N_go_0.
  - rewrite pretty_N_go_step by lia. apply IH; [apply N.div_lt; lia|done].
Qed.

Lemma pretty_nat_nonempty (n : nat) : pretty n ≠ "".
Proof.
  unfold pretty, pretty_nat, pretty, pretty_N.
  case_decide; [done|].
  rewrite pretty_N_go_step by lia. by apply pretty_N_go_nonempty.
Qed.

Lemma single_underscores_app b s t :
  single_underscores b (s +:+ t) =
  single_underscores b s &&
  single_underscores
    (if PyStr.is_empty s then b else ends_with is_underscore s) t.
Proof.
  revert b. induction s as [|c r IH]; intros b; simpl_app; simpl; [done|].
  destruct (is_underscore c) eqn:Hc.
  - rewrite IH, andb_assoc. by destruct r.
  - rewrite IH. by destruct r.
Qed.

Lemma digits_single_underscores b s :
  PyStr.forallb_str PyStr.is_digit s = true → single_underscores b s = true.
Proof.
  revert b. induction s as [|c r IH]; intros b; simpl; [done|].
  intros [Hc Hr]%andb_true_iff. rewrite (digit_not_underscore c Hc). eauto.
Qed.

Lemma numbered_key_canonical base n :
  canonical base = true → canonical (numbered_key base n) = true.
Proof.
  intros (Hne & Hall & Hsingle & Hstart & Hend)%canonical_parts.
  pose proof (pretty_nat_digits n) as Hd.
  pose proof (pretty_nat_nonempty n) as Hdne.
  unfold canonical, numbered_key.
  rewrite !andb_true_iff, !negb_true_iff. split_and!.
  - destruct base; [done|]. by simpl_app.
  - rewrite !forallb_str_app, Hall. simpl.
    eapply forallb_str_impl; [apply digit_is_slug_char|done].
  - rewrite single_underscores_app, Hsingle.
    apply is_empty_false in Hne. rewrite Hne, Hend. simpl_app. simpl.
    by apply digits_single_underscores.
  - by rewrite starts_with_app.
  - rewrite ends_with_app by by simpl_app.
    rewrite ends_with_app by done.
    eapply forallb_ends_false; [apply digit_not_underscore|done].
Qed.

Lemma dedupe_key_canonical used base :
  canonical base = true → canonical (dedupe_key used base) = true.
Proof.
  intros Hb. destruct (dedupe_key_spec used base) as (_ & _ & Hfree & Hused).
  destruct (decide (base ∈ used)) as [Hin|Hin].
  - destruct (Hused Hin) as (n & _ & -> & _). by apply numbered_key_canonical.
  - by rewrite Hfree.
Qed.

Lemma read_entry_trimmed i d :
  trimmed (e_label (read_entry i d)) ∧ trimmed (e_desc (read_entry i d)) ∧
  trimmed (e_qtype (read_entry i d)).
Proof.
  unfold trimmed, read_entry. destruct (is_new_format d); simpl.
  - split_and!; apply strip_idem.
  - split_and!; try apply strip_idem. by destruct (_ && _).
Qed.

Lemma clean_options_shape l :
  Forall (λ o, o ≠ "" ∧ trimmed o) (clean_options l).
Proof.
  unfold clean_options, trimmed. apply Forall_fmap, Forall_forall.
  intros o [Ho _]%list_elem_of_filter. simpl.
  split; [by apply is_empty_false|apply strip_idem].
Qed.

Lemma make_question_well_formed i e key :
  1 ≤ i → canonical key = true → e_label e ≠ "" →
  trimmed (e_label e) → trimmed (e_desc e) → trimmed (e_qtype e) →
  well_formed (make_question i e key).
Proof.
  intros. unfold well_formed, make_question, out_options. simpl.
  split_and!; try done.
  destruct (is_choice_type (e_qtype e)); [|done].
  split; [done|apply clean_options_shape].
Qed.

Lemma normalize_questions_well_formed raw :
  Forall well_formed (normalize_questions raw).
Proof.
  apply Forall_lookup. intros j q Hj.
  destruct (normalize_questions_provenance raw j q Hj)
    as (d & _ & Hpos & Hlabel & ->).
  destruct (read_entry_trimmed (q_id q) d) as (? & ? & ?).
  apply make_question_well_formed; try done.
  - apply dedupe_key_canonical, slugify_canonical.
  - by apply is_empty_false.
Qed.

(** X1. Every record [normalize_questions] returns has a positive id,
    a key in canonical form, a label that is trimmed and not empty, a
    trimmed description and type, and an options list exactly when its
    type is [choice] or [multi], made of trimmed non-empty strings. *)
Theorem normalized_records_well_formed raw q :
  q ∈ normalize_questions raw → well_formed q.
Proof.
  intros Hq. pose proof (normalize_questions_well_formed raw) as Hall.
  rewrite Forall_forall in Hall. by apply Hall.
Qed.

Lemma normalized_records_well_formed_witness :
  Question 3 "q_2" "q!" "" "text" true None ∈ normalize_questions two_q ∧
  well_formed (Question 3 "q_2" "q!" "" "text" true None).
Proof.
  assert (Question 3 "q_2" "q!" "" "text" true None ∈ normalize_questions two_q)
    as Hin.
  { apply (list_elem_of_lookup_2 _ 1). vm_compute. reflexivity. }
  split; [exact Hin|].
  exact (normalized_records_well_formed two_q _ Hin).
Defined.

(** ** Legacy entries, appended entries, documents read back *)

Lemma get_absent_label d :
  Py.has d "label" = false → Py.has d "question" = false →
  e_label (read_entry 0 d) = "" ∧ ∀ i, e_label (read_entry i d) = "".
Proof.
  unfold Py.has. intros Hl Hq.
  assert (∀ i, e_label (read_entry i d) = "") as Hall.
  { intros i. unfold read_entry, is_new_format, Py.has, Py.get.
    destruct (Py.lookup d "label"); [done|].
    destruct (Py.lookup d "question"); [done|].
    rewrite andb_false_r. reflexivity. }
  by split.
Qed.

Lemma kept_legacy_no_key i d :
  is_new_format d = false → e_label (read_entry i d) ≠ "" →
  Py.lookup d "key" = None.
Proof.
  intros Hfmt Hlabel.
  destruct (Py.has d "label" || Py.has d "question") eqn:Hany.
  - unfold is_new_format in Hfmt. rewrite Hany, andb_true_r in Hfmt.
    unfold Py.has in Hfmt. by destruct (Py.lookup d "key").
  - apply orb_false_iff in Hany as [Hl Hq].
    destruct (get_absent_label d Hl Hq) as [_ Hempty]. by rewrite Hempty in Hlabel.
Qed.

(** X2. A record made from a legacy-format entry always takes its key
    from its label: such an entry has no [key] field (with one it would
    have no label and be dropped), so the key is the slug of the label,
    deduplicated against the keys emitted before. *)
Theorem legacy_key_from_label raw j q :
  normalize_questions raw !! j = Some q →
  ∃ d, raw_items raw !! (q_id q - 1) = Some (JDict d) ∧
    (is_new_format d = false →
     Py.lookup d "key" = None ∧
     q_key q =
       dedupe_key (list_to_set (q_key <$> take j (normalize_questions raw)))
         (slugify (q_label q))).
Proof.
  intros Hj.
  destruct (normalize_questions_provenance raw j q Hj)
    as (d & Hd & _ & Hlabel & Hq).
  exists d. split; [done|]. intros Hfmt.
  apply is_empty_false in Hlabel.
  pose proof (kept_legacy_no_key _ d Hfmt Hlabel) as Hkey.
  split; [done|].
  assert (key_field d = "") as Hfield.
  { unfold key_field, Py.get. by rewrite Hkey. }
  assert (base_key (q_id q) (read_entry (q_id q) d) = slugify (q_label q))
    as Hbase.
  { unfold base_key. rewrite legacy_key by done.
    destruct (PyStr.is_empty (slugify _)) eqn:He.
    { apply is_empty_true in He. by apply slugify_nonempty in He. }
    rewrite slugify_idem. by rewrite Hq. }
  rewrite Hq at 1. simpl. by rewrite Hbase.
Qed.

Lemma legacy_key_from_label_witness :
  normalize_questions two_q !! 1 =
    Some (Question 3 "q_2" "q!" "" "text" true None) ∧
  ∃ d, raw_items two_q !! 2 = Some (JDict d) ∧
    (is_new_format d = false → Py.lookup d "key" = None).
Proof.
  split; [vm_compute; reflexivity|].
  destruct (legacy_key_from_label two_q 1
              (Question 3 "q_2" "q!" "" "text" true None))
    as (d & Hd & Hlegacy); [vm_compute; reflexivity|].
  exists d. split; [exact Hd|].
  intros Hfmt. exact (proj1 (Hlegacy Hfmt)).
Defined.

Lemma normalize_loop_app l1 l2 i st :
  normalize_loop i (l1 ++ l2) st =
  normalize_loop (i + length l1) l2 (normalize_loop i l1 st).
Proof.
  revert i st. induction l1 as [|q l1 IH]; intros i st; simpl.
  { by rewrite Nat.add_0_r. }
  rewrite IH. by replace (S i + length l1) with (i + S (length l1)) by lia.
Qed.

Lemma normalize_loop_extends l i st :
  ∃ more, (normalize_loop i l st).1 = (st.1 ++ more)%list.
Proof.
  revert i st. induction l as [|q l IH]; intros i st; simpl.
  { exists []. by rewrite app_nil_r. }
  destruct (IH (S i) (normalize_step st i q)) as [more ->].
  destruct (kept i q) eqn:Hk.
  - destruct (normalize_step_keep st i q Hk) as (d & _ & _ & ->). simpl.
    eexists. by rewrite <-app_assoc.
  - rewrite normalize_step_skip by done. by exists more.
Qed.

(** X3. Entries appended to a question list leave the records of the
    entries before them as they are: the result for [l1 ++ l2] starts
    with the result for [l1], ids and keys included. *)
Theorem normalize_questions_append l1 l2 :
  ∃ more,
    normalize_questions (JList (l1 ++ l2)) =
    (normalize_questions (JList l1) ++ more)%list ∧
    normalize_questions (JDict [("questions", JList (l1 ++ l2))]) =
    (normalize_questions (JDict [("questions", JList l1)]) ++ more)%list.
Proof.
  assert (∀ l, normalize_questions (JDict [("questions", JList l)])
               = normalize_questions (JList l)) as Hwrap by done.
  rewrite !Hwrap.
  unfold normalize_questions. simpl. rewrite normalize_loop_app.
  destruct (normalize_loop_extends l2 (1 + length l1)
              (normalize_loop 1 l1 ([], ∅))) as [more ->].
  by exists more.
Qed.

Lemma or_str s v : s ≠ "" → Py.or (JStr s) v = JStr s.
Proof. intros Hs%is_empty_false. unfold Py.or. simpl. by rewrite Hs. Qed.

Lemma clean_options_fixed opts :
  Forall (λ o, o ≠ "" ∧ trimmed o) opts →
  clean_options (JStr <$> opts) = opts.
Proof.
  unfold trimmed.
  induction 1 as [|o opts [Hne Ho] _ IH]; [done|].
  unfold clean_options in *. rewrite fmap_cons, filter_cons_True.
  - rewrite fmap_cons. cbn [Py.str]. rewrite Ho. f_equal. exact IH.
  - cbn [Py.str]. rewrite Ho. by apply is_empty_false.
Qed.

Lemma canonical_trimmed s : canonical s = true → PyStr.strip s = s.
Proof. intros (_ & Hall & _)%canonical_parts. by apply slug_trimmed. Qed.

Lemma read_entry_fields i q :
  well_formed q → q_type q ≠ "" →
  ∀ d, question_to_json q = JDict d →
  read_entry i d =
  {| e_key := q_key q; e_label := q_label q; e_desc := q_description q;
     e_qtype := q_type q; e_required := q_required q;
     e_options := match q_options q with
                  | Some opts => JList (JStr <$> opts)
                  | None => JNull
                  end |}.
Proof.
  intros (_ & Hkey & Hlabel & Hltrim & Hdtrim & Httrim & _) Htype d.
  unfold question_to_json. intros [= <-].
  pose proof (canonical_parts _ Hkey) as (Hkne & _).
  pose proof (canonical_trimmed _ Hkey) as Hktrim.
  unfold trimmed in *.
  assert (PyStr.strip
            (Py.str (Py.or (Py.or (JStr (q_description q)) JNull) (JStr "")))
          = q_description q) as Hdesc.
  { destruct (decide (q_description q = "")) as [Hd|Hd].
    - rewrite Hd. reflexivity.
    - by rewrite !or_str. }
  unfold read_entry, is_new_format, key_field, Py.has, Py.get.
  destruct (q_options q) as [opts|];
    cbn [app Py.lookup String.eqb Ascii.eqb Bool.eqb andb orb];
    rewrite Hdesc, !or_str by done; cbn [Py.str Py.truthy];
    by rewrite Hktrim, Hltrim, Httrim.
Qed.

Lemma read_entry_document i q d :
  well_formed q → q_type q ≠ "" → question_to_json q = JDict d →
  e_label (read_entry i d) = q_label q ∧
  base_key i (read_entry i d) = q_key q ∧
  ∀ key, make_question i (read_entry i d) key =
         {| q_id := i; q_key := key; q_label := q_label q;
            q_description := q_description q; q_type := q_type q;
            q_required := q_required q; q_options := q_options q |}.
Proof.
  intros Hwf Htype Hd. rewrite (read_entry_fields i q Hwf Htype d Hd).
  destruct Hwf as (_ & Hkey & _ & _ & _ & _ & Hopts).
  pose proof (canonical_parts _ Hkey) as (Hkne%is_empty_false & _).
  split_and!.
  - done.
  - unfold base_key. simpl. rewrite Hkne. by apply slugify_fixed.
  - intros key. unfold make_question, out_options. simpl. f_equal.
    destruct (q_options q) as [opts|].
    + destruct Hopts as [-> Hshape]. simpl. by rewrite clean_options_fixed.
    + by rewrite Hopts.
Qed.

Lemma normalize_loop_documents qs :
  ∀ i st,
    Forall well_formed qs → Forall (λ q, q_type q ≠ "") qs →
    NoDup (q_key <$> qs) → (∀ q, q ∈ qs → q_key q ∉ st.2) →
    (normalize_loop i (question_to_json <$> qs) st).1 =
    (st.1 ++ renumber i qs)%list.
Proof.
  induction qs as [|q qs IH]; intros i st Hwf Hty Hnd Hfresh.
  { simpl. by rewrite app_nil_r. }
  apply Forall_cons in Hwf as [Hq Hwf]. apply Forall_cons in Hty as [Htq Hty].
  apply NoDup_cons in Hnd as [Hnew Hnd].
  assert (∃ d, question_to_json q = JDict d) as [d Hd] by (by eexists).
  destruct (read_entry_document i q d Hq Htq Hd) as (Hlabel & Hbase & Hmake).
  rewrite fmap_cons. cbn [normalize_loop renumber]. rewrite Hd.
  unfold normalize_step.
  assert (PyStr.is_empty (e_label (read_entry i d)) = false) as ->.
  { rewrite Hlabel. apply is_empty_false. apply Hq. }
  cbv zeta. rewrite Hbase, Hmake.
  assert (dedupe_key st.2 (q_key q) = q_key q) as ->.
  { apply dedupe_key_spec. apply Hfresh. by left. }
  rewrite IH; try done.
  - simpl. by rewrite <-app_assoc.
  - simpl. intros q' Hq'. apply not_elem_of_union. split.
    + intros Heq%elem_of_singleton. apply Hnew. rewrite <-Heq.
      apply list_elem_of_fmap. by exists q'.
    + apply Hfresh. by right.
Qed.

Lemma renumber_fixed i qs :
  q_id <$> qs = seq i (length qs) → renumber i qs = qs.
Proof.
  revert i. induction qs as [|q qs IH]; intros i; simpl; [done|].
  intros [= Hi Hrest]. rewrite IH by done. f_equal.
  destruct q. simpl in *. by subst.
Qed.

Lemma normalize_payload raw :
  Forall (λ q, q_type q ≠ "") (normalize_questions raw) →
  normalize_questions (payload (normalize_questions raw)) =
  renumber 1 (normalize_questions raw).
Proof.
  intros Hty. unfold payload. unfold normalize_questions at 1. simpl.
  pose proof (normalize_loop_keys (raw_items raw) 1 _ keys_inv_init)
    as (_ & Hnd & _).
  rewrite <-normalize_questions_loop in Hnd.
  rewrite normalize_loop_documents; try done.
  apply normalize_questions_well_formed.
Qed.

(** X4. A normalised list written back as the document
    [{"questions": [...]}] and normalised again gives the same records,
    numbered 1, 2, 3, ...: keys, labels, descriptions, types, flags and
    options are unchanged, provided no type is the empty string; with
    ids already 1, 2, 3, ... the list is reproduced as it is. *)
Theorem normalize_questions_document_round_trip raw :
  Forall (λ q, q_type q ≠ "") (normalize_questions raw) →
  normalize_questions (payload (normalize_questions raw)) =
    renumber 1 (normalize_questions raw) ∧
  (q_id <$> normalize_questions raw =
     seq 1 (length (normalize_questions raw)) →
   normalize_questions (payload (normalize_questions raw)) =
     normalize_questions raw).
Proof.
  intros Hty. split; [by apply normalize_payload|].
  intros Hids. rewrite normalize_payload by done. by apply renumber_fixed.
Qed.

Lemma normalize_questions_document_round_trip_witness :
  Forall (λ q, q_type q ≠ "") (normalize_questions two_q) ∧
  normalize_questions (payload (normalize_questions two_q)) =
  [Question 1 "q" "Q" "" "text" true None;
   Question 2 "q_2" "q!" "" "text" true None].
Proof.
  assert (Forall (λ q, q_type q ≠ "") (normalize_questions two_q)) as Hty.
  { repeat constructor; discriminate. }
  split; [exact Hty|].
  exact (proj1 (normalize_questions_document_round_trip two_q Hty)).
Defined.

(** ** More on the validation pass *)

Lemma read_value_trimmed form q : trimmed (read_value form q).
Proof.
  unfold trimmed, read_value.
  destruct (String.eqb (q_type q) "multi"); apply strip_idem.
Qed.

Lemma read_value_agree form1 form2 q :
  form_getlist form1 (q_key q) = form_getlist form2 (q_key q) →
  form_getlist form1 (q_key q +:+ "[]") = form_getlist form2 (q_key q +:+ "[]") →
  read_value form1 q = read_value form2 q.
Proof.
  intros Hone Hmany. unfold read_value, form_get. by rewrite Hone, Hmany.
Qed.

Section validation_more.
Context `{PyLib}.

Lemma validate_step_agree form1 form2 st q :
  read_value form1 q = read_value form2 q →
  validate_step form1 st q = validate_step form2 st q.
Proof. intros Hval. unfold validate_step. by rewrite Hval. Qed.

Lemma step_answers_lookup form q k v :
  step_answers form q !! k = Some v →
  k = q_key q ∧ v = read_value form q.
Proof.
  unfold step_answers, validate_step.
  destruct (q_required q && PyStr.is_empty (read_value form q)); simpl.
  { by rewrite lookup_empty. }
  destruct (PyStr.is_empty (read_value form q)) eqn:He; simpl.
  { apply is_empty_true in He. rewrite He.
    intros [[<- <-]|[_ Hc]]%lookup_insert_Some; [done|].
    by rewrite lookup_empty in Hc. }
  destruct (type_error q (read_value form q)); simpl.
  - by rewrite lookup_empty.
  - intros [[<- <-]|[_ Hc]]%lookup_insert_Some; [done|].
    by rewrite lookup_empty in Hc.
Qed.

(** X5. Every accepted answer is stored under the key of a question of
    the list and is the value read for such a question, trimmed; no
    other key is ever stored. *)
Theorem accepted_answers_come_from_questions form questions k v :
  (validate form questions).1 !! k = Some v →
  trimmed v ∧ ∃ q, q ∈ questions ∧ q_key q = k ∧ v = read_value form q.
Proof.
  induction questions as [|q qs IH].
  { unfold validate, validate_from. simpl. by rewrite lookup_empty. }
  rewrite validate_cons. simpl.
  intros [Hin|[_ Hq]]%lookup_union_Some_raw.
  - destruct (IH Hin) as (Htrim & q' & Hq' & Hk & Hv).
    split; [done|]. exists q'. split; [by right|done].
  - apply step_answers_lookup in Hq as [-> ->].
    split; [apply read_value_trimmed|]. exists q. split; [by left|done].
Qed.

(** X6. When the keys of the questions are pairwise distinct, every
    question is accounted for exactly once: it has an error or an
    accepted answer, so the errors and the answers together are as many
    as the questions. *)
Theorem validate_accounts_for_every_question form questions :
  NoDup (q_key <$> questions) →
  length (validate form questions).2 + size (validate form questions).1 =
  length questions.
Proof.
  induction questions as [|q qs IH]; [done|].
  rewrite fmap_cons. intros [Hnew Hnd]%NoDup_cons.
  rewrite validate_cons. cbn [fst snd length]. rewrite length_app.
  specialize (IH Hnd).
  destruct (step_verdict form q) as [[-> [msg ->]]|[-> [v ->]]].
  - rewrite (right_id_L ∅ (∪)). simpl. lia.
  - rewrite map_size_disj_union, map_size_singleton; [simpl; lia|].
    apply map_disjoint_singleton_r, not_elem_of_dom.
    intros Hin%validate_dom_subseteq. by apply elem_of_list_to_set in Hin.
Qed.

(** X7. The pass reads the form only at the field names [key] and
    [key[]] of the questions: two submissions that agree there give the
    same answers and the same errors, whatever else they hold. *)
Theorem validate_ignores_other_fields form1 form2 questions :
  (∀ q, q ∈ questions →
     form_getlist form1 (q_key q) = form_getlist form2 (q_key q) ∧
     form_getlist form1 (q_key q +:+ "[]") =
     form_getlist form2 (q_key q +:+ "[]")) →
  validate form1 questions = validate form2 questions.
Proof.
  induction questions as [|q qs IH]; [done|]. intros Hagree.
  rewrite !validate_cons, IH by (intros q' Hq'; apply Hagree; by right).
  destruct (Hagree q) as [Hone Hmany]; [by left|].
  unfold step_answers, step_errors.
  by rewrite (validate_step_agree form1 form2)
    by by apply read_value_agree.
Qed.

Lemma type_error_choice q value :
  q_type q = "choice" →
  type_error q value =
  if negb (bool_decide (declared_options q = []))
     && negb (PyStr.mem value (declared_options q))
  then Some (msg_choice (q_label q)) else None.
Proof. unfold type_error. intros ->. reflexivity. Qed.

(** X8. A choice question with a non-empty value: when options are
    declared the value is accepted exactly when it is one of them, and
    is otherwise refused with [Réponse invalide pour '{label}'.], spelt
    out in the statement (the character 233 is the e with acute accent);
    when none are declared every value is accepted. *)
Theorem choice_accepted_iff_option form q :
  q_type q = "choice" → read_value form q ≠ "" →
  (declared_options q ≠ [] →
     (accepted form q ↔ read_value form q ∈ declared_options q) ∧
     (¬ accepted form q →
      step_errors form q =
        ["R" +:+ String "233" "ponse invalide pour '" +:+ q_label q +:+ "'."])) ∧
  (declared_options q = [] → accepted form q) ∧
  (accepted form q → step_answers form q = {[q_key q := read_value form q]}).
Proof.
  intros Hty Hval%is_empty_false.
  unfold accepted, step_errors, step_answers, validate_step.
  rewrite Hval, andb_false_r, type_error_choice by done.
  unfold PyStr.mem.
  destruct (decide (declared_options q = [])) as [Hopts|Hopts].
  - rewrite (bool_decide_eq_true_2 _ Hopts). simpl.
    split_and!; [done|done|]. by rewrite insert_empty.
  - rewrite (bool_decide_eq_false_2 _ Hopts). simpl.
    destruct (decide (read_value form q ∈ declared_options q)) as [Hin|Hin].
    + rewrite (bool_decide_eq_true_2 _ Hin). simpl.
      split_and!; [done|done|]. by rewrite insert_empty.
    + rewrite (bool_decide_eq_false_2 _ Hin). simpl.
      split_and!; done.
Qed.

(** A question that is not required and whose value is empty is
    accepted with the empty string, whatever its type and its options:
    no type check is run on it. *)
Lemma optional_empty_accepted form q :
  q_required q = false → read_value form q = "" →
  accepted form q ∧ step_answers form q = {[q_key q := ""]}.
Proof.
  intros Hreq Hval.
  unfold accepted, step_errors, step_answers, validate_step.
  rewrite Hreq, Hval. simpl. by rewrite insert_empty.
Qed.

Lemma type_error_other q value :
  q_type q ≠ "number" → q_type q ≠ "date" →
  q_type q ≠ "choice" → q_type q ≠ "multi" →
  type_error q value = None.
Proof.
  intros H1%String.eqb_neq H2%String.eqb_neq H3%String.eqb_neq
    H4%String.eqb_neq.
  unfold type_error. by rewrite H1, H2, H3, H4.
Qed.

(** X9. A question whose type is none of [number], [date], [choice]
    and [multi], be it [text] or a name the validator does not know, is
    never refused for its content: every non-empty value is accepted
    and stored trimmed. *)
Theorem unchecked_types_accept_all form q :
  q_type q ≠ "number" → q_type q ≠ "date" →
  q_type q ≠ "choice" → q_type q ≠ "multi" →
  read_value form q ≠ "" →
  accepted form q ∧ step_answers form q = {[q_key q := read_value form q]} ∧
  read_value form q = PyStr.strip (form_get form (q_key q) "").
Proof.
  intros H1 H2 H3 H4 Hval.
  assert (read_value form q = PyStr.strip (form_get form (q_key q) ""))
    as Hread.
  { unfold read_value. apply String.eqb_neq in H4. rewrite H4.
    by destruct (form_get form (q_key q) ""). }
  apply is_empty_false in Hval.
  unfold accepted, step_errors, step_answers, validate_step.
  rewrite Hval, andb_false_r, type_error_other by done. simpl.
  by rewrite insert_empty.
Qed.

End validation_more.

Lemma accepted_answers_come_from_questions_witness :
  (@validate RefLib.lib [("poids", " 12,5 "); ("nom", "Ada ")]
     [number_q; text_q]).1 !! "nom" = Some "Ada" ∧
  trimmed "Ada".
Proof.
  split; [vm_compute; reflexivity|].
  destruct (@accepted_answers_come_from_questions RefLib.lib
              [("poids", " 12,5 "); ("nom", "Ada ")] [number_q; text_q]
              "nom" "Ada") as [Htrim _]; [vm_compute; reflexivity|].
  exact Htrim.
Defined.

Lemma validate_accounts_for_every_question_witness :
  NoDup (q_key <$> [number_q; text_q]) ∧
  length (@validate RefLib.lib [("poids", "x")] [number_q; text_q]).2
  + size (@validate RefLib.lib [("poids", "x")] [number_q; text_q]).1 = 2.
Proof.
  assert (NoDup (q_key <$> [number_q; text_q])) as Hnd.
  { apply (bool_decide_unpack _). vm_compute. exact I. }
  split; [exact Hnd|].
  exact (@validate_accounts_for_every_question RefLib.lib
           [("poids", "x")] [number_q; text_q] Hnd).
Defined.

Lemma validate_ignores_other_fields_witness :
  @validate RefLib.lib [("csrf", "t"); ("poids", "3"); ("poids[]", "9")]
    [number_q] =
  @validate RefLib.lib [("poids", "3"); ("poids[]", "9"); ("x", "y")]
    [number_q].
Proof.
  apply (@validate_ignores_other_fields RefLib.lib).
  intros q ->%list_elem_of_singleton. split; reflexivity.
Defined.

Lemma choice_accepted_iff_option_witness :
  (q_type choice_q = "choice" ∧ read_value [("ville", " Lyon ")] choice_q ≠ "" ∧
   read_value [("ville", "Nice")] choice_q ≠ "" ∧
   declared_options choice_q ≠ [] ∧
   ¬ @accepted RefLib.lib [("ville", "Nice")] choice_q) ∧
  (@accepted RefLib.lib [("ville", " Lyon ")] choice_q ↔
   "Lyon" ∈ ["Paris"; "Lyon"]) ∧
  @step_errors RefLib.lib [("ville", "Nice")] choice_q =
    ["R" +:+ String "233" "ponse invalide pour 'Ville'."].
Proof.
  assert (¬ @accepted RefLib.lib [("ville", "Nice")] choice_q) as Hrefused.
  { unfold accepted. vm_compute. discriminate. }
  split;
    [split_and!; [reflexivity|discriminate|discriminate|discriminate
                 |exact Hrefused]|].
  split.
  - destruct (@choice_accepted_iff_option RefLib.lib [("ville", " Lyon ")]
                choice_q) as [Hdeclared _]; [reflexivity|discriminate|].
    destruct Hdeclared as [Hiff _]; [discriminate|]. exact Hiff.
  - destruct (@choice_accepted_iff_option RefLib.lib [("ville", "Nice")]
                choice_q) as [Hdeclared _]; [reflexivity|discriminate|].
    destruct Hdeclared as [_ Hmsg]; [discriminate|]. exact (Hmsg Hrefused).
Defined.

Lemma unchecked_types_accept_all_witness :
  (q_type misspelt_q ≠ "number" ∧ q_type misspelt_q ≠ "date" ∧
   q_type misspelt_q ≠ "choice" ∧ q_type misspelt_q ≠ "multi" ∧
   read_value [("age", "douze")] misspelt_q ≠ "") ∧
  @accepted RefLib.lib [("age", "douze")] misspelt_q.
Proof.
  split; [split_and!; discriminate|].
  refine (proj1 (@unchecked_types_accept_all RefLib.lib [("age", "douze")]
                   misspelt_q _ _ _ _ _)); discriminate.
Defined.

(** ** More on the view and the result log *)

Lemma row_base_lookup ctx :
  let row0 : gmap string string :=
    <["user_email" := email (current_user ctx)]>
      (<["user_name" := first_name (current_user ctx)]>
         (<["user_id" := pretty (user_id (current_user ctx))]>
            (<["date" := today ctx]> ∅))) in
  (λ f, default "" (row0 !! f)) <$> fixed_fields = submitter_cells ctx.
Proof.
  cbv zeta. unfold submitter_cells, fixed_fields.
  rewrite !fmap_cons, fmap_nil. done.
Qed.

Lemma answer_row_lookup_other ctx answers qs k :
  k ∉ q_key <$> qs →
  answer_row ctx qs answers !! k =
  (<["user_email" := email (current_user ctx)]>
     (<["user_name" := first_name (current_user ctx)]>
        (<["user_id" := pretty (user_id (current_user ctx))]>
           (<["date" := today ctx]> (∅ : gmap string string))))) !! k.
Proof.
  unfold answer_row. generalize (<["user_email" := email (current_user ctx)]>
    (<["user_name" := first_name (current_user ctx)]>
       (<["user_id" := pretty (user_id (current_user ctx))]>
          (<["date" := today ctx]> (∅ : gmap string string))))).
  induction qs as [|q qs IH] using rev_ind; intros row0 Hk; [done|].
  rewrite foldl_app. simpl. rewrite fmap_app in Hk.
  apply not_elem_of_app in Hk as [Hk Hq].
  rewrite lookup_insert_ne.
  - by apply IH.
  - intros Heq. apply Hq. simpl. rewrite Heq. by left.
Qed.

Lemma written_row_plain ctx answers qs :
  (∀ f, f ∈ fixed_fields → f ∉ q_key <$> qs) →
  written_row (fieldnames qs) (answer_row ctx qs answers) =
  (submitter_cells ctx
   ++ ((λ q, default "" (answers !! q_key q)) <$> qs))%list.
Proof.
  intros Hfixed. unfold written_row, fieldnames. rewrite fmap_app. f_equal.
  - rewrite <-(row_base_lookup ctx). cbv zeta.
    apply list_fmap_ext. intros n f Hf.
    rewrite answer_row_lookup_other; [done|].
    apply Hfixed. by apply list_elem_of_lookup_2 in Hf.
  - rewrite <-list_fmap_compose. apply list_fmap_ext. intros n q Hq. simpl.
    rewrite answer_row_lookup; [done|].
    apply list_elem_of_fmap. exists q. split; [done|].
    by apply list_elem_of_lookup_2 in Hq.
Qed.

(** X10. When no question key is one of [date], [user_id],
    [user_name], [user_email], [save_answers] appends exactly the row
    made of the day, the id, the name and the e-mail of the submitter
    followed by the answer of each question in order, the empty string
    standing for a missing answer; the header goes before it only when
    the log did not exist; the other logs are untouched. *)
Theorem save_answers_appends_row ctx qid questions answers res :
  (∀ f, f ∈ fixed_fields → f ∉ q_key <$> questions) →
  save_answers ctx qid questions answers res !! qid =
    Some (default [] (res !! qid)
          ++ (if bool_decide (is_Some (res !! qid)) then []
              else [fieldnames questions])
          ++ [(submitter_cells ctx
               ++ ((λ q, default "" (answers !! q_key q)) <$> questions))])%list ∧
  ∀ other, other ≠ qid →
    save_answers ctx qid questions answers res !! other = res !! other.
Proof.
  intros Hfixed. unfold save_answers. split.
  - by rewrite lookup_insert_eq, written_row_plain.
  - intros other Hother. by rewrite lookup_insert_ne.
Qed.

Lemma save_answers_appends_row_witness :
  (∀ f, f ∈ fixed_fields → f ∉ q_key <$> [number_q; text_q]) ∧
  save_answers alice "sondage" [number_q; text_q] {[ "poids" := "3" ]} ∅
    !! "sondage" =
  Some [["date"; "user_id"; "user_name"; "user_email"; "poids"; "nom"];
        ["03/11/2026"; "7"; "Alice"; "alice@example.org"; "3"; ""]].
Proof.
  assert (∀ f, f ∈ fixed_fields → f ∉ q_key <$> [number_q; text_q]) as Hfixed.
  { apply Forall_forall, (bool_decide_unpack _). vm_compute. exact I. }
  split; [exact Hfixed|].
  exact (proj1 (save_answers_appends_row alice "sondage" [number_q; text_q]
                  {[ "poids" := "3" ]} ∅ Hfixed)).
Defined.

(** X11. A question key that is the name of one of the four fixed
    columns takes that column over: in the row [save_answers] appends,
    the cell of the column holds the answer to the question, not the
    datum of the submitter. *)
Theorem save_answers_key_overrides_column ctx qid questions answers res n f q :
  fixed_fields !! n = Some f → q ∈ questions → q_key q = f →
  ∃ rows row,
    save_answers ctx qid questions answers res !! qid = Some (rows ++ [row])%list ∧
    row !! n = Some (default "" (answers !! f)).
Proof.
  intros Hn Hq Hkey. unfold save_answers. rewrite lookup_insert_eq.
  eexists _, _. rewrite app_assoc. split; [done|].
  unfold written_row, fieldnames.
  rewrite list_lookup_fmap, lookup_app_l by by eapply lookup_lt_Some.
  rewrite Hn. simpl. rewrite answer_row_lookup; [done|].
  apply list_elem_of_fmap. by exists q.
Qed.

Lemma save_answers_key_overrides_column_witness :
  (fixed_fields !! 0 = Some "date" ∧ date_q ∈ [date_q] ∧ q_key date_q = "date") ∧
  ∃ rows row,
    save_answers alice "agenda" [date_q] {[ "date" := "2026-12-24" ]} ∅
      !! "agenda" = Some (rows ++ [row])%list ∧
    row !! 0 = Some "2026-12-24".
Proof.
  assert (date_q ∈ [date_q]) as Hin by (by left).
  split; [split_and!; [reflexivity|exact Hin|reflexivity]|].
  exact (save_answers_key_overrides_column alice "agenda" [date_q]
           {[ "date" := "2026-12-24" ]} ∅ 0 "date" date_q
           eq_refl Hin eq_refl).
Defined.

Section view_more.
Context `{PyLib}.

Lemma flash_all_definitions msgs category w :
  definitions (flash_all msgs category w) = definitions w.
Proof.
  unfold flash_all. revert w.
  induction msgs as [|m msgs IH]; intros w; simpl; [done|]. by rewrite IH.
Qed.

Lemma questionnaire_definitions ctx req qid w :
  definitions (questionnaire ctx req qid w).2 = definitions w.
Proof.
  unfold questionnaire.
  destruct (load_questions (definitions w) qid) as [[|q0 qs]|]; try done.
  destruct (method req); [done|].
  destruct (validate (form req) (q0 :: qs)) as [answers [|e errors]]; [done|].
  cbn [fst snd]. apply flash_all_definitions.
Qed.

(** X12. Whatever the request, the view leaves the definition files as
    they are, only adds flashed messages after the present ones, only
    adds rows after the present ones of the log of its questionnaire,
    and touches no other log; a GET changes no log at all. *)
Theorem questionnaire_only_appends ctx req qid w :
  definitions (questionnaire ctx req qid w).2 = definitions w ∧
  (∃ more, flashes (questionnaire ctx req qid w).2 = (flashes w ++ more)%list) ∧
  (∃ more,
     default [] (results (questionnaire ctx req qid w).2 !! qid) =
     (default [] (results w !! qid) ++ more)%list) ∧
  (∀ other, other ≠ qid →
     results (questionnaire ctx req qid w).2 !! other = results w !! other) ∧
  (method req = GET → results (questionnaire ctx req qid w).2 = results w).
Proof.
  unfold questionnaire.
  destruct (load_questions (definitions w) qid) as [[|q0 qs]|].
  1, 3: (split_and!; try done; [by eexists|exists []; by rewrite app_nil_r]).
  destruct (method req).
  { split_and!; try done; exists []; by rewrite app_nil_r. }
  destruct (validate (form req) (q0 :: qs)) as [answers [|e errors]].
  - cbn [fst snd flash set_results definitions results flashes].
    split_and!; try done.
    + by eexists.
    + unfold save_answers. rewrite lookup_insert_eq. simpl. by eexists.
    + intros other Hother. unfold save_answers. by rewrite lookup_insert_ne.
  - cbn [fst snd].
    rewrite flash_all_definitions, flash_all_results, flash_all_flashes.
    split_and!; try done; [by eexists|exists []; by rewrite app_nil_r].
Qed.

Lemma written_row_length fields row :
  length (written_row fields row) = length fields.
Proof. unfold written_row. by rewrite length_fmap. Qed.

Lemma save_answers_log_ok ctx qid questions answers res :
  (∀ rows, res !! qid = Some rows → log_ok questions rows) →
  ∀ rows, save_answers ctx qid questions answers res !! qid = Some rows →
          log_ok questions rows.
Proof.
  intros Hok rows. unfold save_answers. rewrite lookup_insert_eq.
  intros [= <-]. destruct (res !! qid) as [old|] eqn:Hold.
  - destruct (Hok old eq_refl) as (body & -> & Hbody).
    rewrite bool_decide_eq_true_2 by by eexists. cbn [default app].
    exists (body ++ [written_row (fieldnames questions)
                       (answer_row ctx questions answers)])%list.
    split; [reflexivity|]. apply Forall_app. split; [done|].
    apply Forall_singleton, written_row_length.
  - rewrite bool_decide_eq_false_2 by (by intros [? ?]). cbn [default app].
    exists [written_row (fieldnames questions)
              (answer_row ctx questions answers)].
    split; [reflexivity|]. apply Forall_singleton, written_row_length.
Qed.

(** X13. The header is written once and every row fits it: if the log
    of a questionnaire, when there is one, starts with the header of its
    questions and has only rows of as many cells as the header, the same
    holds after any request to the view, which also leaves the questions
    of the questionnaire unchanged. *)
Theorem questionnaire_keeps_log_rectangular ctx req qid w questions :
  load_questions (definitions w) qid = Some questions →
  (∀ rows, results w !! qid = Some rows → log_ok questions rows) →
  load_questions (definitions (questionnaire ctx req qid w).2) qid
    = Some questions ∧
  ∀ rows, results (questionnaire ctx req qid w).2 !! qid = Some rows →
          log_ok questions rows.
Proof.
  intros Hload Hok.
  rewrite questionnaire_definitions. split; [done|].
  unfold questionnaire. rewrite Hload.
  destruct questions as [|q0 qs]; [done|].
  destruct (method req); [done|].
  destruct (validate (form req) (q0 :: qs)) as [answers [|e errors]].
  - cbn [fst snd flash set_results definitions results flashes].
    by apply save_answers_log_ok.
  - cbn [fst snd]. by rewrite flash_all_results.
Qed.

End view_more.

Lemma questionnaire_keeps_log_rectangular_witness :
  (load_questions (definitions start_world) "sondage" =
     Some [Question 1 "poids" "Poids" "" "number" true None] ∧
   ∀ rows, results start_world !! "sondage" = Some rows →
           log_ok [Question 1 "poids" "Poids" "" "number" true None] rows) ∧
  ∀ rows,
    results (@questionnaire RefLib.lib alice (Request POST [("poids", "3")])
               "sondage" start_world).2 !! "sondage" = Some rows →
    log_ok [Question 1 "poids" "Poids" "" "number" true None] rows.
Proof.
  assert (load_questions (definitions start_world) "sondage" =
          Some [Question 1 "poids" "Poids" "" "number" true None]) as Hload.
  { vm_compute. reflexivity. }
  assert (∀ rows, results start_world !! "sondage" = Some rows →
            log_ok [Question 1 "poids" "Poids" "" "number" true None] rows)
    as Hnone.
  { intros rows Hrows. vm_compute in Hrows. discriminate. }
  split; [split; [exact Hload|exact Hnone]|].
  exact (proj2 (@questionnaire_keeps_log_rectangular RefLib.lib alice
                  (Request POST [("poids", "3")]) "sondage" start_world
                  _ Hload Hnone)).
Defined.

(** ** File names and the list of questionnaires *)

Lemma rsplit1_no_sep sep s :
  PyStr.contains sep s = false → rsplit1 sep s = [s].
Proof.
  induction s as [|c r IH]; simpl; [done|].
  intros [Hc Hr]%orb_false_iff. by rewrite (IH Hr), Hc.
Qed.

Lemma rsplit1_last sep a b :
  PyStr.contains sep b = false → rsplit1 sep (a +:+ String sep b) = [a; b].
Proof.
  intros Hb. induction a as [|c r IH]; simpl_app; simpl.
  - by rewrite rsplit1_no_sep, Ascii.eqb_refl.
  - by rewrite IH.
Qed.

Lemma rsplit1_sep sep s :
  PyStr.contains sep s = true →
  ∃ a b, s = a +:+ String sep b ∧ PyStr.contains sep b = false.
Proof.
  induction s as [|c r IH]; simpl; [done|].
  destruct (PyStr.contains sep r) eqn:Hr.
  - intros _. destruct (IH eq_refl) as (a & b & -> & Hb).
    by exists (String c a), b.
  - rewrite orb_false_r. intros ->%Ascii.eqb_eq. by exists "", r.
Qed.

(** X14. [allowed_file] accepts exactly the names that have a dot and
    whose part after the last dot is [json] in any letter case. *)
Theorem allowed_file_iff filename :
  allowed_file filename = true ↔
  ∃ root ext, filename = root +:+ String dot ext ∧
    PyStr.contains dot ext = false ∧ PyStr.lower ext = "json".
Proof.
  unfold allowed_file, ALLOWED_EXTENSIONS, PyStr.mem. split.
  - intros [Hdot Hext]%andb_true_iff.
    destruct (rsplit1_sep dot filename Hdot) as (root & ext & -> & Hno).
    rewrite rsplit1_last in Hext by done. simpl in Hext.
    apply bool_decide_eq_true_1, list_elem_of_singleton in Hext.
    by exists root, ext.
  - intros (root & ext & -> & Hno & Hjson).
    assert (PyStr.contains dot (String dot ext) = true) as Hdot
      by reflexivity.
    rewrite contains_app, Hdot, orb_true_r.
    rewrite rsplit1_last by done. simpl. rewrite Hjson.
    by apply bool_decide_eq_true_2, list_elem_of_singleton.
Qed.

Lemma allowed_file_iff_witness :
  allowed_file "Sondage.2026.JSON" = true ∧
  ∃ root ext, "Sondage.2026.JSON" = root +:+ String dot ext ∧
    PyStr.contains dot ext = false ∧ PyStr.lower ext = "json".
Proof.
  split; [reflexivity|].
  apply (proj1 (allowed_file_iff "Sondage.2026.JSON")). reflexivity.
Defined.

Lemma endswith_app s suffix :
  endswith s suffix = true ↔ ∃ root, s = root +:+ suffix.
Proof.
  induction s as [|c r IH]; cbn [endswith].
  - rewrite orb_false_r, String.eqb_eq. split.
    + intros <-. by exists "".
    + intros ([|? ?] & Heq); [done|]. by simpl_app.
  - rewrite orb_true_iff, IH, String.eqb_eq. split.
    + intros [<-|(root & ->)]; [by exists ""|].
      by exists (String c root).
    + intros ([|d root] & Heq).
      * by left.
      * right. exists root. revert Heq. simpl_app. by intros [= _ ->].
Qed.

Lemma splitext_root_json root :
  PyStr.forallb_str is_dot root = false →
  splitext_root (root +:+ ".json") = root.
Proof.
  intros Hroot. unfold splitext_root.
  change (root +:+ ".json") with (root +:+ String dot "json").
  rewrite rsplit1_last by done. by rewrite Hroot.
Qed.

Lemma splitext_root_dots root :
  PyStr.forallb_str is_dot root = true →
  splitext_root (root +:+ ".json") = root +:+ ".json".
Proof.
  intros Hroot. unfold splitext_root.
  change (root +:+ ".json") with (root +:+ String dot "json").
  rewrite rsplit1_last by done. by rewrite Hroot.
Qed.

Lemma insert_by_id_perm x l : insert_by_id x l ≡ₚ x :: l.
Proof.
  induction l as [|y l IH]; simpl; [done|].
  destruct (String.leb (l_id x) (l_id y)); [done|].
  by rewrite IH, Permutation_swap.
Qed.

Lemma sort_by_id_perm l : sort_by_id l ≡ₚ l.
Proof.
  induction l as [|x l IH]; simpl; [done|].
  by rewrite insert_by_id_perm, IH.
Qed.

Lemma insert_by_id_sorted x l :
  StronglySorted by_id l → StronglySorted by_id (insert_by_id x l).
Proof.
  induction 1 as [|y l Hl IH Hy]; simpl.
  { repeat constructor. }
  destruct (String.leb (l_id x) (l_id y)) eqn:Hxy.
  - constructor; [by constructor|]. constructor.
    + unfold by_id, String.le. by rewrite Hxy.
    + eapply Forall_impl; [exact Hy|]. intros z Hz.
      unfold by_id in *. etrans; [|exact Hz].
      unfold String.le. by rewrite Hxy.
  - constructor; [done|]. rewrite insert_by_id_perm. constructor; [|done].
    unfold by_id. destruct (total String.le (l_id x) (l_id y)) as [Hle|Hle];
      [|done]. unfold String.le in Hle. by rewrite Hxy in Hle.
Qed.

Lemma sort_by_id_sorted l : StronglySorted by_id (sort_by_id l).
Proof.
  induction l as [|x l IH]; simpl; [constructor|].
  by apply insert_by_id_sorted.
Qed.

Lemma insert_by_id_filter (P : listed → Prop) `{∀ x, Decision (P x)} x l :
  (∀ y, P x → P y → l_id y = l_id x) →
  StronglySorted by_id l →
  filter P (insert_by_id x l) = filter P (x :: l).
Proof.
  intros Hsame. induction 1 as [|y l Hl IH Hy]; simpl; [done|].
  destruct (String.leb (l_id x) (l_id y)) eqn:Hxy; [done|].
  rewrite !filter_cons, IH, !filter_cons.
  destruct (decide (P x)) as [Hx|Hx]; [|done].
  destruct (decide (P y)) as [Hy'|Hy']; [|done].
  rewrite (Hsame y Hx Hy') in Hxy.
  assert (String.le (l_id x) (l_id x)) as Hrefl by done.
  unfold String.le in Hrefl. by rewrite Hxy in Hrefl.
Qed.

Lemma sort_by_id_stable l k :
  filter (λ x, l_id x = k) (sort_by_id l) = filter (λ x, l_id x = k) l.
Proof.
  induction l as [|x l IH]; simpl; [done|].
  rewrite insert_by_id_filter.
  - by rewrite !filter_cons, IH.
  - intros y Hx Hy. congruence.
  - apply sort_by_id_sorted.
Qed.

(** X15. [list_questionnaires] lists exactly the names of the
    directory that end with [.json], one entry each, sorted by
    ascending id, entries of equal id keeping the order of the
    directory; a missing directory gives the empty list. *)
Theorem list_questionnaires_sorted listdir res :
  StronglySorted by_id (list_questionnaires listdir res) ∧
  list_questionnaires listdir res ≡ₚ
    list_entry res <$>
      filter (λ fname, endswith fname ".json" = true) (default [] listdir) ∧
  (∀ e, e ∈ list_questionnaires listdir res ↔
     ∃ fname, fname ∈ default [] listdir ∧ endswith fname ".json" = true ∧
              e = list_entry res fname) ∧
  (∀ k, filter (λ e, l_id e = k) (list_questionnaires listdir res) =
        filter (λ e, l_id e = k)
          (list_entry res <$>
             filter (λ fname, endswith fname ".json" = true)
               (default [] listdir))) ∧
  list_questionnaires None res = [].
Proof.
  unfold list_questionnaires. split_and!.
  - apply sort_by_id_sorted.
  - apply sort_by_id_perm.
  - intros e. rewrite sort_by_id_perm, list_elem_of_fmap.
    split.
    + intros (fname & -> & [Hjson Hin]%list_elem_of_filter). by exists fname.
    + intros (fname & Hin & Hjson & ->). exists fname.
      split; [done|]. by apply list_elem_of_filter.
  - intros k. apply sort_by_id_stable.
  - done.
Qed.

Lemma list_questionnaires_sorted_witness :
  (∃ fname, fname ∈ ["b.json"; "notes.txt"; "a.json"] ∧
            endswith fname ".json" = true ∧
            Listed "a" "a.json" true = list_entry {[ "a" := [] ]} fname) ∧
  Listed "a" "a.json" true ∈
    list_questionnaires (Some ["b.json"; "notes.txt"; "a.json"]) {[ "a" := [] ]}.
Proof.
  assert (∃ fname, fname ∈ ["b.json"; "notes.txt"; "a.json"] ∧
            endswith fname ".json" = true ∧
            Listed "a" "a.json" true = list_entry {[ "a" := [] ]} fname)
    as Hfile.
  { exists "a.json". split_and!; [|reflexivity|reflexivity].
    apply (bool_decide_unpack _). vm_compute. exact I. }
  split; [exact Hfile|].
  destruct (list_questionnaires_sorted (Some ["b.json"; "notes.txt"; "a.json"])
              {[ "a" := [] ]}) as (_ & _ & Hiff & _).
  apply Hiff. exact Hfile.
Defined.

(** X16. For every listed entry, [has_results] tells whether a result
    log exists under its id, and its file name ends with [.json]; the
    file name is the id followed by [.json], except when only dots
    stand before the extension, in which case the id is the whole file
    name. *)
Theorem list_questionnaires_entries listdir res e :
  e ∈ list_questionnaires listdir res →
  (l_has_results e = true ↔ is_Some (res !! l_id e)) ∧
  ∃ root, l_filename e = root +:+ ".json" ∧
    (PyStr.forallb_str is_dot root = false → l_id e = root) ∧
    (PyStr.forallb_str is_dot root = true → l_id e = l_filename e).
Proof.
  unfold list_questionnaires. rewrite sort_by_id_perm, list_elem_of_fmap.
  intros (fname & -> & [Hjson _]%list_elem_of_filter).
  apply endswith_app in Hjson as [root ->].
  unfold list_entry. simpl. split.
  - apply bool_decide_eq_true.
  - exists root. split_and!; [done| |].
    + apply splitext_root_json.
    + apply splitext_root_dots.
Qed.

Lemma list_questionnaires_entries_witness :
  Listed "a.b" "a.b.json" false ∈
    list_questionnaires (Some ["a.b.json"; ".json"]) ∅ ∧
  ∃ root, "a.b.json" = root +:+ ".json" ∧
    (PyStr.forallb_str is_dot root = false → "a.b" = root).
Proof.
  assert (Listed "a.b" "a.b.json" false ∈
            list_questionnaires (Some ["a.b.json"; ".json"]) ∅) as Hin.
  { apply (bool_decide_unpack _). vm_compute. exact I. }
  split; [exact Hin|].
  destruct (list_questionnaires_entries _ _ _ Hin)
    as (_ & root & Hname & Hid & _).
  exists root. split; [exact Hname|exact Hid].
Defined.

(** ** Deleting a questionnaire *)

Section delete.
Context `{PyLib}.

(** X17. After an administrator deletes a questionnaire, its definition
    and its result log are gone, also when only the log existed, and
    the view reports it as not found; every other definition and log is
    as before; one message is flashed, of success exactly when the
    definition existed. Without the administrator flag nothing
    changes. *)
Theorem admin_delete_removes_both qid w :
  let out := admin_delete_questionnaire true qid w in
  load_questions (definitions out.2) qid = None ∧
  results out.2 !! qid = None ∧
  (∀ other, other ≠ qid →
     definitions out.2 !! other = definitions w !! other ∧
     results out.2 !! other = results w !! other) ∧
  flashes out.2 =
    (flashes w ++
     [if bool_decide (is_Some (definitions w !! qid))
      then (msg_deleted qid, "success")
      else (msg_not_found qid, "error")])%list ∧
  (∀ ctx req,
     questionnaire ctx req qid out.2 =
     (Redirect "views.quiz", flash (msg_not_found qid) "error" out.2)) ∧
  admin_delete_questionnaire false qid w = (Forbidden, w).
Proof.
  cbv zeta. unfold admin_delete_questionnaire. cbn [negb fst snd].
  assert (load_questions (delete qid (definitions w)) qid = None) as Hgone.
  { unfold load_questions. by rewrite lookup_delete_eq. }
  destruct (bool_decide (is_Some (definitions w !! qid)));
    cbn [flash remove_files definitions results flashes];
    (split_and!;
     [exact Hgone
     |apply lookup_delete_eq
     |intros other Hother; by rewrite !lookup_delete_ne
     |done
     |intros ctx req; unfold questionnaire;
      cbn [flash remove_files definitions results flashes]; by rewrite Hgone
     |done]).
Qed.

End delete.

(** ** Creating a questionnaire *)

Example create_example :
  (admin_create_questionnaire true (Request POST creation_form)
     {| definitions := ∅; results := ∅; flashes := [] |}).2 =
  {| definitions :=
       {[ "mon_sondage" :=
            Parsed (payload
              [Question 1 "ton_nom" "Ton nom ?" "" "text" true None;
               Question 2 "ville" "Ville" "" "choice" false
                 (Some ["Paris"; "Lyon"])]) ]};
     results := ∅;
     flashes := [(msg_created "mon_sondage", "success")] |}.
Proof. vm_compute. reflexivity. Qed.

Lemma size_list_to_set_le (l : list string) :
  size (list_to_set l : gset string) ≤ length l.
Proof.
  induction l as [|x l IH].
  { by rewrite list_to_set_nil, size_empty. }
  rewrite list_to_set_cons, size_union_alt, size_singleton.
  assert (size (list_to_set l ∖ {[x]} : gset string)
          ≤ size (list_to_set l : gset string))
    by (apply subseteq_size; set_solver).
  simpl. lia.
Qed.

Lemma form_find_name form name v :
  form_find form name = Some v → name ∈ form.*1.
Proof.
  unfold form_find, form_getlist.
  intros Hv. apply head_Some in Hv as [rest Hv].
  assert (v ∈ (filter (λ kv : string * string, kv.1 = name) form).*2) as Hin
    by (rewrite Hv; by left).
  apply list_elem_of_fmap in Hin as ([k v'] & _ & [Hk Hin]%list_elem_of_filter).
  simpl in Hk. subst k. apply list_elem_of_fmap. by exists (name, v').
Qed.

Lemma form_get_name form name :
  form_get form name "" ≠ "" → name ∈ form.*1.
Proof.
  unfold form_get. intros Hv.
  destruct (form_getlist form name) as [|v rest] eqn:Hl; [done|].
  apply (form_find_name form name v). unfold form_find. by rewrite Hl.
Qed.

Lemma stripped_field_name form name :
  PyStr.is_empty (PyStr.strip (str_or (form_get form name "") "")) = false →
  name ∈ form.*1.
Proof.
  intros Hv. apply form_get_name. intros Heq. by rewrite Heq in Hv.
Qed.

Lemma option_field_inj idx i j : option_field idx i = option_field idx j → i = j.
Proof.
  unfold option_field. intros Heq.
  apply (inj (String.app "option_")) in Heq.
  apply (inj (String.app (pretty idx))) in Heq.
  apply (inj (String.app "_")) in Heq.
  by apply (inj pretty) in Heq.
Qed.

Lemma field_inj a b i j :
  a ∈ ["label"; "key"; "desc"] → b ∈ ["label"; "key"; "desc"] →
  field a i = field b j → i = j.
Proof.
  unfold field. intros Ha Hb.
  repeat (apply elem_of_cons in Ha as [->|Ha]);
    [| | |by apply elem_of_nil in Ha];
    (repeat (apply elem_of_cons in Hb as [->|Hb]);
     [| | |by apply elem_of_nil in Hb]);
    simpl_app; try discriminate; intros Heq; simplify_eq;
    by apply (inj pretty).
Qed.

Lemma options_loop_some form idx fuel :
  ∀ opt_i options (seen : gset string),
    seen ⊆ list_to_set form.*1 →
    (∀ j, opt_i ≤ j → option_field idx j ∉ seen) →
    size (list_to_set form.*1 : gset string) < fuel + size seen →
    is_Some (options_loop fuel form idx opt_i options).
Proof.
  induction fuel as [|fuel IH]; intros opt_i options seen Hsub Hfresh Hsize.
  - apply subseteq_size in Hsub. lia.
  - simpl. destruct (form_find form (option_field idx opt_i)) as [v|] eqn:Hv;
      [|done].
    apply form_find_name in Hv.
    apply (IH _ _ ({[option_field idx opt_i]} ∪ seen)).
    + apply union_subseteq. split; [|done].
      apply singleton_subseteq_l. by apply elem_of_list_to_set.
    + intros j Hj. apply not_elem_of_union. split.
      * intros Heq%elem_of_singleton%option_field_inj. lia.
      * apply Hfresh. lia.
    + rewrite size_union, size_singleton.
      * lia.
      * apply disjoint_singleton_l, Hfresh. lia.
Qed.

Lemma options_loop_total form idx :
  is_Some (options_loop (S (length form)) form idx 1 []).
Proof.
  apply (options_loop_some _ _ _ _ _ ∅).
  - set_solver.
  - set_solver.
  - rewrite size_empty.
    pose proof (size_list_to_set_le form.*1) as Hle.
    rewrite length_fmap in Hle. lia.
Qed.

Lemma questions_loop_some form fuel :
  ∀ idx questions (seen : gset string),
    1 ≤ idx →
    seen ⊆ list_to_set form.*1 →
    (∀ j a, idx ≤ j → 2 ≤ j → a ∈ ["label"; "key"; "desc"] →
            field a j ∉ seen) →
    size (list_to_set form.*1 : gset string) + (if 1 <? idx then 0 else 1)
      < fuel + size seen →
    is_Some (questions_loop fuel form idx questions).
Proof.
  induction fuel as [|fuel IH];
    intros idx questions seen Hpos Hsub Hfresh Hsize.
  - apply subseteq_size in Hsub. lia.
  - cbn [questions_loop]. cbv zeta.
    set (label := PyStr.strip (str_or (form_get form (field "label" idx) "") "")).
    set (key := PyStr.strip (str_or (form_get form (field "key" idx) "") "")).
    set (desc := PyStr.strip (str_or (form_get form (field "desc" idx) "") "")).
    destruct (1 <? idx) eqn:Hidx.
    + apply Nat.ltb_lt in Hidx.
      assert (∀ a qs, a ∈ ["label"; "key"; "desc"] →
                field a idx ∈ form.*1 →
                is_Some (questions_loop fuel form (S idx) qs)) as Hnext.
      { intros a qs Ha Hin. apply (IH _ _ ({[field a idx]} ∪ seen)).
        - lia.
        - apply union_subseteq. split; [|done].
          apply singleton_subseteq_l. by apply elem_of_list_to_set.
        - intros j b Hj _ Hb. apply not_elem_of_union. split.
          + intros Heq%elem_of_singleton. apply field_inj in Heq; [lia|done..].
          + apply Hfresh; [lia|lia|done].
        - assert (1 <? S idx = true) as -> by (apply Nat.ltb_lt; lia).
          rewrite size_union, size_singleton; [lia|].
          apply disjoint_singleton_l, Hfresh; [lia|lia|done]. }
      destruct (PyStr.is_empty label) eqn:Hlabel; cbn [andb].
      * destruct (PyStr.is_empty key) eqn:Hkey; cbn [andb].
        -- destruct (PyStr.is_empty desc) eqn:Hdesc; cbn [andb]; [done|].
           apply (Hnext "desc"); [set_solver|]. by apply stripped_field_name.
        -- apply (Hnext "key"); [set_solver|]. by apply stripped_field_name.
      * apply (Hnext "label"); [set_solver|]. by apply stripped_field_name.
    + rewrite andb_false_r.
      assert (∀ qs, is_Some (questions_loop fuel form (S idx) qs)) as Hnext.
      { intros qs. apply (IH _ _ seen); [lia|done| |].
        - intros j a Hj Hj2 Ha. by apply Hfresh; [lia|..].
        - assert (1 <? S idx = true) as -> by (apply Nat.ltb_lt; lia). lia. }
      destruct (PyStr.is_empty label); apply Hnext.
Qed.

Lemma questions_loop_total form :
  is_Some (questions_loop (S (S (length form))) form 1 []).
Proof.
  apply (questions_loop_some _ _ _ _ ∅).
  - done.
  - set_solver.
  - set_solver.
  - rewrite size_empty. simpl.
    pose proof (size_list_to_set_le form.*1) as Hle.
    rewrite length_fmap in Hle. lia.
Qed.

Lemma options_loop_more_fuel form idx fuel :
  ∀ opt_i options r fuel',
    options_loop fuel form idx opt_i options = Some r → fuel ≤ fuel' →
    options_loop fuel' form idx opt_i options = Some r.
Proof.
  induction fuel as [|fuel IH]; intros opt_i options r fuel' Hr Hle; [done|].
  destruct fuel' as [|fuel']; [lia|]. simpl in *.
  destruct (form_find form (option_field idx opt_i)); [|done].
  apply IH; [done|lia].
Qed.

Lemma questions_loop_more_fuel form fuel :
  ∀ idx questions r fuel',
    questions_loop fuel form idx questions = Some r → fuel ≤ fuel' →
    questions_loop fuel' form idx questions = Some r.
Proof.
  induction fuel as [|fuel IH]; intros idx questions r fuel' Hr Hle; [done|].
  destruct fuel' as [|fuel']; [lia|]. cbn [questions_loop] in *.
  cbv zeta in *.
  destruct (_ && _ && _ && _); [done|].
  destruct (PyStr.is_empty _); (apply IH; [done|lia]).
Qed.

(** X18. The two [while True] loops that read the creation form always
    stop: reading the options of a question ends within
    [length form + 1] reads and reading the questions within
    [length form + 2] rounds, whatever the form holds, and more rounds
    give the same lists. *)
Theorem form_loops_terminate form idx :
  options_loop (S (length form)) form idx 1 [] = Some (read_options form idx) ∧
  questions_loop (S (S (length form))) form 1 [] = Some (read_questions form) ∧
  (∀ fuel, S (length form) ≤ fuel →
     options_loop fuel form idx 1 [] = Some (read_options form idx)) ∧
  (∀ fuel, S (S (length form)) ≤ fuel →
     questions_loop fuel form 1 [] = Some (read_questions form)).
Proof.
  unfold read_options, read_questions.
  destruct (options_loop_total form idx) as [opts Hopts].
  destruct (questions_loop_total form) as [qs Hqs].
  rewrite Hopts, Hqs. simpl. split_and!; [done|done| |].
  - intros fuel Hfuel. by eapply options_loop_more_fuel.
  - intros fuel Hfuel. by eapply questions_loop_more_fuel.
Qed.

Lemma form_loops_terminate_witness :
  S (S (length creation_form)) ≤ 100 ∧
  questions_loop 100 creation_form 1 [] = Some (read_questions creation_form).
Proof.
  split; [vm_compute; lia|].
  destruct (form_loops_terminate creation_form 1) as (_ & _ & _ & Hmore).
  apply Hmore. vm_compute. lia.
Defined.

Lemma questions_loop_entries form fuel :
  ∀ idx questions r,
    Forall (form_entry form) questions →
    questions_loop fuel form idx questions = Some r →
    Forall (form_entry form) r.
Proof.
  induction fuel as [|fuel IH]; intros idx questions r Hqs; [done|].
  cbn [questions_loop]. cbv zeta.
  destruct (_ && _ && _ && _); [by intros [= <-]|].
  destruct (PyStr.is_empty _) eqn:Hlabel; [by apply IH|].
  apply IH. apply Forall_app. split; [done|]. apply Forall_singleton.
  eexists _, _, _, _, _, _. split; [done|].
  split_and!; [by apply is_empty_false|apply strip_idem..].
Qed.

Lemma read_questions_entries form : Forall (form_entry form) (read_questions form).
Proof.
  unfold read_questions.
  destruct (questions_loop_total form) as [qs Hqs]. rewrite Hqs. simpl.
  by eapply questions_loop_entries.
Qed.

Lemma form_entry_read form i q :
  form_entry form q →
  ∃ d, q = JDict d ∧ e_label (read_entry i d) ≠ "" ∧
       e_qtype (read_entry i d) ≠ "".
Proof.
  intros (idx & label & key & desc & qtype & required & -> & Hne & Hl & Ht).
  unfold form_question. eexists. split; [done|].
  unfold trimmed in *.
  assert (PyStr.strip (Py.str (Py.or (JStr qtype) (JStr "text"))) ≠ "")
    as Htype.
  { destruct (decide (qtype = "")) as [->|Hq]; [done|].
    rewrite or_str by done. cbn [Py.str]. by rewrite Ht. }
  unfold read_entry, is_new_format, key_field, Py.has, Py.get.
  destruct (is_choice_type qtype);
    cbn [app Py.lookup String.eqb Ascii.eqb Bool.eqb andb orb e_label e_qtype];
    rewrite !(or_str label) by done; cbn [Py.str]; by rewrite Hl.
Qed.

Lemma form_entries_normalized form questions :
  Forall (form_entry form) questions →
  q_id <$> normalize_questions (JDict [("questions", JList questions)]) =
    seq 1 (length questions) ∧
  Forall (λ q, q_type q ≠ "")
    (normalize_questions (JDict [("questions", JList questions)])).
Proof.
  intros Hqs. rewrite Forall_lookup in Hqs. split.
  - rewrite normalize_questions_ids. apply kept_positions_all.
    intros n q Hq. destruct (form_entry_read form (1 + n) q) as (d & -> & Hl & _).
    { by eapply Hqs. }
    simpl. by apply negb_true_iff, is_empty_false.
  - apply Forall_lookup. intros j q Hj.
    destruct (normalize_questions_provenance _ j q Hj) as (d & Hd & _ & _ & Hq).
    destruct (form_entry_read form (q_id q) (JDict d)) as (d' & [= <-] & _ & Ht).
    { by eapply Hqs. }
    by rewrite Hq.
Qed.

Lemma slugify_not_empty s : PyStr.is_empty (slugify s) = false.
Proof. apply is_empty_false, slugify_nonempty. Qed.

Lemma form_entries_normalized_nonempty form questions :
  Forall (form_entry form) questions → questions ≠ [] →
  normalize_questions (JDict [("questions", JList questions)]) ≠ [].
Proof.
  intros Hqs Hne Hnil.
  destruct (form_entries_normalized form questions Hqs) as [Hids _].
  rewrite Hnil in Hids. destruct questions; [done|]. discriminate.
Qed.

Lemma load_written qid normalized defs :
  q_id <$> normalized = seq 1 (length normalized) →
  Forall well_formed normalized → Forall (λ q, q_type q ≠ "") normalized →
  NoDup (q_key <$> normalized) →
  load_questions (<[qid := Parsed (payload normalized)]> defs) qid =
  Some normalized.
Proof.
  intros Hids Hwf Hty Hnd. unfold load_questions.
  rewrite lookup_insert_eq. f_equal.
  unfold payload, normalize_questions. simpl.
  rewrite normalize_loop_documents by done. simpl.
  by apply renumber_fixed.
Qed.

(** X19. A creation that goes through stores a questionnaire that loads
    back as it was normalised: when the id is free and the form gives
    at least one labelled question, the definition written under the
    slug of the submitted id loads as the normalised questions, which
    are as many as the questions read and numbered 1, 2, 3, ...; no
    other definition and no result log changes. *)
Theorem admin_create_stores_loadable submitted w :
  definitions w !! slugify (form_get submitted "qid" "") = None →
  read_questions submitted ≠ [] →
  let qid := slugify (form_get submitted "qid" "") in
  let normalized :=
    normalize_questions
      (JDict [("questions", JList (read_questions submitted))]) in
  let out := admin_create_questionnaire true (Request POST submitted) w in
  out.1 = RedirectTo "views.admin_questionnaires" ∧
  load_questions (definitions out.2) qid = Some normalized ∧
  normalized ≠ [] ∧
  q_id <$> normalized = seq 1 (length (read_questions submitted)) ∧
  (∀ other, other ≠ qid →
     definitions out.2 !! other = definitions w !! other) ∧
  results out.2 = results w ∧
  flashes out.2 = (flashes w ++ [(msg_created qid, "success")])%list.
Proof.
  intros Hfree Hsome. cbv zeta.
  pose proof (read_questions_entries submitted) as Hentries.
  destruct (form_entries_normalized submitted _ Hentries) as [Hids Hty].
  pose proof (form_entries_normalized_nonempty submitted _ Hentries Hsome)
    as Hnorm.
  assert (load_questions
            (<[slugify (form_get submitted "qid" "") :=
                 Parsed (payload
                   (normalize_questions
                      (JDict [("questions", JList (read_questions submitted))])))]>
               (definitions w))
            (slugify (form_get submitted "qid" "")) =
          Some (normalize_questions
                  (JDict [("questions", JList (read_questions submitted))])))
    as Hload.
  { apply load_written.
    - assert (length (normalize_questions
                        (JDict [("questions", JList (read_questions submitted))]))
              = length (read_questions submitted)) as ->.
      { rewrite <-(length_fmap q_id), Hids. apply length_seq. }
      exact Hids.
    - apply normalize_questions_well_formed.
    - done.
    - pose proof (normalize_loop_keys (read_questions submitted) 1 _
                    keys_inv_init) as (_ & Hnd & _).
      by rewrite normalize_questions_loop. }
  unfold admin_create_questionnaire. cbn [negb method form].
  rewrite slugify_not_empty.
  rewrite bool_decide_eq_false_2 by (rewrite Hfree; by intros [? ?]).
  destruct (read_questions submitted) as [|q0 qs] eqn:Hread; [done|].
  destruct (normalize_questions _) as [|n0 ns] eqn:Hn; [done|].
  cbn [fst snd flash write_definition definitions results flashes].
  split_and!; try done.
  intros other Hother. by rewrite lookup_insert_ne.
Qed.

Lemma admin_create_stores_loadable_witness :
  (definitions start_world !! slugify (form_get creation_form "qid" "") = None ∧
   read_questions creation_form ≠ []) ∧
  load_questions
    (definitions
       (admin_create_questionnaire true (Request POST creation_form)
          start_world).2) "mon_sondage" =
  Some [Question 1 "ton_nom" "Ton nom ?" "" "text" true None;
        Question 2 "ville" "Ville" "" "choice" false (Some ["Paris"; "Lyon"])].
Proof.
  assert (definitions start_world !! slugify (form_get creation_form "qid" "")
          = None) as Hfree by (vm_compute; reflexivity).
  assert (read_questions creation_form ≠ []) as Hsome
    by (vm_compute; discriminate).
  split; [split; [exact Hfree|exact Hsome]|].
  destruct (admin_create_stores_loadable creation_form start_world Hfree Hsome)
    as (_ & Hload & _).
  exact Hload.
Defined.

(** X20. Whatever the request, the creation view never replaces or
    removes a definition that exists and never touches a result log; it
    flashes at most one message, which is never [Identifiant invalide.]
    nor [Impossible de créer ...]: the slug of the id is never empty
    and the questions read from the form always normalise to a
    non-empty list. Without the administrator flag, and on a GET,
    nothing changes. *)
Theorem admin_create_never_overwrites is_admin req w :
  let out := admin_create_questionnaire is_admin req w in
  let qid := slugify (form_get (form req) "qid" "") in
  (∀ id f, definitions w !! id = Some f → definitions out.2 !! id = Some f) ∧
  results out.2 = results w ∧
  (∃ more, flashes out.2 = (flashes w ++ more)%list ∧
     (more = [] ∨ more = [(msg_exists, "error")] ∨
      more = [(msg_no_question, "error")] ∨
      more = [(msg_created qid, "success")])) ∧
  (msg_invalid_id ∉ [msg_exists; msg_no_question; msg_created qid] ∧
   msg_cannot_create ∉ [msg_exists; msg_no_question; msg_created qid]) ∧
  (is_admin = false → out = (Forbidden, w)) ∧
  (method req = GET → out.2 = w).
Proof.
  cbv zeta.
  assert (msg_invalid_id ∉ [msg_exists; msg_no_question;
                             msg_created (slugify (form_get (form req) "qid" ""))]
          ∧ msg_cannot_create ∉ [msg_exists; msg_no_question;
                             msg_created (slugify (form_get (form req) "qid" ""))])
    as Hnever.
  { split; intros Hin;
      repeat (apply elem_of_cons in Hin as [Hin|Hin]);
      try (by apply elem_of_nil in Hin);
      unfold msg_invalid_id, msg_cannot_create, msg_exists, msg_no_question,
        msg_created in Hin;
      revert Hin; simpl_app; discriminate. }
  assert (∃ more : list (string * string), flashes w = (flashes w ++ more)%list
            ∧ (more = [] ∨ more = [(msg_exists, "error")] ∨
               more = [(msg_no_question, "error")] ∨
               more = [(msg_created (slugify (form_get (form req) "qid" "")),
                        "success")])) as Hsame.
  { exists []. rewrite app_nil_r. by split; [|left]. }
  destruct Hnever as [Hnever1 Hnever2].
  unfold admin_create_questionnaire.
  destruct is_admin; cbn [negb]; [|cbn [fst snd]; by split_and!].
  destruct (method req) eqn:Hmethod; [cbn [fst snd]; by split_and!|].
  rewrite slugify_not_empty.
  destruct (bool_decide (is_Some (definitions w !! _))) eqn:Hexists.
  { cbn [fst snd flash definitions results flashes].
    split_and!; try done. eexists. split; [done|]. right. by left. }
  apply bool_decide_eq_false_1 in Hexists.
  pose proof (read_questions_entries (form req)) as Hentries.
  destruct (read_questions (form req)) as [|q0 qs] eqn:Hread.
  { cbn [fst snd flash definitions results flashes].
    split_and!; try done. eexists. split; [done|]. right. right. by left. }
  pose proof (form_entries_normalized_nonempty (form req) (q0 :: qs) Hentries)
    as Hnorm.
  destruct (normalize_questions _) as [|n0 ns]; [by destruct Hnorm|].
  cbn [fst snd flash write_definition definitions results flashes].
  split_and!; try done.
  - intros id f Hid. rewrite lookup_insert_ne; [done|].
    intros <-. apply Hexists. by eexists.
  - eexists. split; [done|]. by do 3 right.
Qed.

Lemma questionnaire_only_appends_witness :
  method (Request GET []) = GET ∧
  results (@questionnaire RefLib.lib alice (Request GET []) "sondage"
             start_world).2 = results start_world.
Proof.
  split; [reflexivity|].
  destruct (@questionnaire_only_appends RefLib.lib alice (Request GET [])
              "sondage" start_world) as (_ & _ & _ & _ & Hget).
  apply Hget. reflexivity.
Defined.

Lemma admin_delete_removes_both_witness :
  "casse" ≠ "sondage" ∧
  definitions (@admin_delete_questionnaire true "sondage" start_world).2
    !! "casse" = Some Unparseable.
Proof.
  split; [discriminate|].
  destruct (@admin_delete_removes_both RefLib.lib "sondage" start_world)
    as (_ & _ & Hother & _).
  destruct (Hother "casse") as [Hdefs _]; [discriminate|].
  rewrite Hdefs. vm_compute. reflexivity.
Defined.

Lemma admin_create_never_overwrites_witness :
  definitions start_world !! "sondage" =
    Some (Parsed (JList [JDict [("key", JStr "poids");
                                ("label", JStr "Poids");
                                ("type", JStr "number");
                                ("required", JBool true)]])) ∧
  definitions
    (admin_create_questionnaire true
       (Request POST [("qid", "Sondage"); ("label_1", "Autre")])
       start_world).2 !! "sondage" =
    Some (Parsed (JList [JDict [("key", JStr "poids");
                                ("label", JStr "Poids");
                                ("type", JStr "number");
                                ("required", JBool true)]])).
Proof.
  assert (definitions start_world !! "sondage" =
    Some (Parsed (JList [JDict [("key", JStr "poids");
                                ("label", JStr "Poids");
                                ("type", JStr "number");
                                ("required", JBool true)]]))) as Hdef.
  { vm_compute. reflexivity. }
  split; [exact Hdef|].
  destruct (admin_create_never_overwrites true
              (Request POST [("qid", "Sondage"); ("label_1", "Autre")])
              start_world) as (Hkeep & _).
  apply Hkeep. exact Hdef.
Defined.

(** ** More on [slugify] *)

Lemma space_lower_char c : PyStr.is_space (PyStr.lower_char c) = PyStr.is_space c.
Proof. all_chars c. Qed.

Lemma lower_char_idem c : PyStr.lower_char (PyStr.lower_char c) = PyStr.lower_char c.
Proof. all_chars c. Qed.

Lemma lower_idem s : PyStr.lower (PyStr.lower s) = PyStr.lower s.
Proof.
  induction s as [|c r IH]; simpl; [done|]. by rewrite lower_char_idem, IH.
Qed.

Lemma lstrip_lower s :
  PyStr.lstrip PyStr.is_space (PyStr.lower s) =
  PyStr.lower (PyStr.lstrip PyStr.is_space s).
Proof.
  induction s as [|c r IH]; simpl; [done|]. rewrite space_lower_char.
  by destruct (PyStr.is_space c).
Qed.

Lemma rstrip_lower s :
  PyStr.rstrip PyStr.is_space (PyStr.lower s) =
  PyStr.lower (PyStr.rstrip PyStr.is_space s).
Proof.
  induction s as [|c r IH]; simpl; [done|]. rewrite IH, space_lower_char.
  assert (PyStr.is_empty (PyStr.lower (PyStr.rstrip PyStr.is_space r))
          = PyStr.is_empty (PyStr.rstrip PyStr.is_space r)) as ->
    by by destruct (PyStr.rstrip PyStr.is_space r).
  by destruct (_ && _).
Qed.

Lemma strip_lower s : PyStr.strip (PyStr.lower s) = PyStr.lower (PyStr.strip s).
Proof.
  unfold PyStr.strip, PyStr.strip_chars. by rewrite lstrip_lower, rstrip_lower.
Qed.

Lemma str_or_empty s : str_or s "" = s.
Proof. by destruct s. Qed.

(** X21. The result of [slugify] is never empty, is made of the
    characters [a-z], [0-9] and [_] only, neither starts nor ends with
    an underscore and has no two underscores in a row. *)
Theorem slugify_shape s :
  slugify s ≠ "" ∧
  PyStr.forallb_str is_slug_char (slugify s) = true ∧
  starts_with is_underscore (slugify s) = false ∧
  ends_with is_underscore (slugify s) = false ∧
  single_underscores false (slugify s) = true.
Proof.
  pose proof (canonical_parts _ (slugify_canonical s))
    as (Hne & Hall & Hsingle & Hstart & Hend).
  by split_and!.
Qed.

(** X22. [slugify] does not see letter case nor surrounding white
    space: a string, its lower-cased form and its trimmed form have the
    same slug. *)
Theorem slugify_case_and_space s :
  slugify (PyStr.lower s) = slugify s ∧ slugify (PyStr.strip s) = slugify s.
Proof.
  unfold slugify. rewrite !str_or_empty. split.
  - by rewrite strip_lower, lower_idem.
  - by rewrite strip_idem.
Qed.

(** ** A definition file that cannot be read *)

(** C4. Read from the disk, [load_questions] returns [None] exactly for
    an identifier without a file and the empty list for a file that
    [json.load] refuses with [JSONDecodeError]; on files of that kind
    it is the function of the same name above. But a file that makes
    [open] or [json.load] raise anything else, as an upload that is not
    UTF-8 does, makes [load_questions] raise too: for that file, which
    is not parseable JSON either, no empty list is returned. *)
Theorem load_questions_other_error_raises :
  (∀ files qid,
     Disk.load_questions files qid = Disk.Returned None ↔ files !! qid = None) ∧
  (∀ files qid,
     Disk.load_questions (<[qid := Disk.Decoded Unparseable]> files) qid =
     Disk.Returned (Some [])) ∧
  (∀ files qid,
     Disk.load_questions files qid = Disk.Raised ↔
     files !! qid = Some Disk.OtherError) ∧
  (∀ defs qid,
     Disk.load_questions (Disk.Decoded <$> defs) qid =
     Disk.Returned (load_questions defs qid)) ∧
  Disk.load_questions uploads "latin1" = Disk.Raised ∧
  Disk.load_questions uploads "casse" = Disk.Returned (Some []) ∧
  Disk.load_questions uploads "absent" = Disk.Returned None.
Proof.
  split_and!.
  - intros files qid. unfold Disk.load_questions.
    destruct (files !! qid) as [[[|raw]|]|]; split; done.
  - intros files qid. unfold Disk.load_questions.
    by rewrite lookup_insert_eq.
  - intros files qid. unfold Disk.load_questions.
    destruct (files !! qid) as [[[|raw]|]|]; split; done.
  - intros defs qid. unfold Disk.load_questions, load_questions.
    rewrite lookup_fmap. by destruct (defs !! qid) as [[|raw]|].
  - vm_compute. reflexivity.
  - vm_compute. reflexivity.
  - vm_compute. reflexivity.
Qed.
